(** * CAT issuance command ([cmds.py]): a shallow embedding

    The command resolves a TAIL program, curries it, builds the inner and the
    CAT-wrapped puzzle, asks the wallet for a funding transaction, selects
    the eve coin, builds the genesis spend and aggregates everything into
    one spend bundle.

    The Python code is embedded as Rocq functions.  Exceptions are values of
    [exn] carried by [result]; printing to standard output is a writer layer
    on top ([M]).  Everything the module imports from the puzzle-language
    runtime, the signature scheme, the ledger library and the wallet RPC
    client is an interface (a type class) here, so that statements hold for
    any implementation of those collaborators; a small concrete
    implementation ([Demo]) is used to run the pipeline on explicit inputs. *)

From Stdlib Require Import List String Ascii ZArith Lia Bool Permutation.
From Stdlib.Strings Require Import Byte.
Import ListNotations.
Local Open Scope string_scope.
Local Open Scope list_scope.
Local Open Scope Z_scope.
#[local] Set Warnings "-register-all".

(** ** Exceptions and the error monad *)

(** The exceptions the module itself can raise, and two constructors for
    what a collaborator raises: an exception of class [Exception], or the
    [SystemExit] of a collaborator that ends the process (the configuration
    loader does so when [config.yaml] is missing). *)
Inductive exn : Type :=
| NameError (name : string)          (* a global name with no binding *)
| UnboundLocalError (name : string)  (* a local read before it is bound *)
| IndexError                         (* [list(...)[0]] on an empty list *)
| AttributeError                     (* a method call on [None] *)
| OSError (path : string)            (* [open] failed *)
| ClientConnectorError               (* aiohttp: the wallet is not there *)
| LibraryError (what : string)       (* raised inside a collaborator *)
| SystemExit.                        (* [sys.exit] inside a collaborator *)

(** [isinstance(e, Exception)]: what [except Exception] catches.
    [SystemExit] derives from [BaseException] only. *)
Definition is_Exception (e : exn) : bool :=
  match e with
  | SystemExit => false
  | _ => true
  end.

Inductive result (A : Type) : Type :=
| Ok (a : A)
| Err (e : exn).
Arguments Ok {A} a.
Arguments Err {A} e.

Definition rbind {A B : Type} (r : result A) (k : A -> result B) : result B :=
  match r with
  | Ok a => k a
  | Err e => Err e
  end.

Declare Scope result_scope.
Delimit Scope result_scope with result.
Notation "x <- r ;; k" := (rbind r (fun x => k))
  (at level 61, r at next level, right associativity) : result_scope.

(** [[f(x) for x in xs]] with a fallible [f]: left to right, the first
    exception wins. *)
Fixpoint map_result {A B : Type} (f : A -> result B) (xs : list A)
  : result (list B) :=
  match xs with
  | [] => Ok []
  | x :: rest =>
      (y <- f x ;;
       ys <- map_result f rest ;;
       Ok (y :: ys))%result
  end.

(** A [for] loop that rebinds one accumulator and whose body can raise. *)
Fixpoint fold_result {A B : Type} (step : A -> B -> result A) (acc : A)
  (xs : list B) : result A :=
  match xs with
  | [] => Ok acc
  | x :: rest => (acc' <- step acc x ;; fold_result step acc' rest)%result
  end.

(** [list(...)[0]]. *)
Definition first_item {A : Type} (l : list A) : result A :=
  match l with
  | [] => Err IndexError
  | x :: _ => Ok x
  end.

(** ** Bytes, text and programs *)

Definition bytes : Type := list byte.

Definition bytes_eqb (a b : bytes) : bool :=
  if list_eq_dec byte_eq_dec a b then true else false.

(** Python [str] values are modelled by Rocq strings: sequences of
    characters with codes 0..255. *)

(** [c in s] for a one-character [c]. *)
Fixpoint contains_char (c : ascii) (s : string) : bool :=
  match s with
  | EmptyString => false
  | String d rest => Ascii.eqb c d || contains_char c rest
  end.

(** [\s] of Python's [re] on [str] patterns, on the character codes the
    model has: TAB..CR, FS..US, SPACE, NEL and NBSP. *)
Definition py_isspace (c : ascii) : bool :=
  let n := N_of_ascii c in
  ((9 <=? n) && (n <=? 13) || (28 <=? n) && (n <=? 32)
   || (n =? 133) || (n =? 160))%N.

(** The pattern [\(mod\s] matched at the head of [s]. *)
Definition mod_here (s : string) : bool :=
  match s with
  | String "(" (String "m" (String "o" (String "d" (String w _)))) =>
      py_isspace w
  | _ => false
  end.

(** [re.compile(r"\(mod\s").search(s)], as a truth value. *)
Fixpoint search_mod (s : string) : bool :=
  match s with
  | EmptyString => false
  | String _ rest => mod_here s || search_mod rest
  end.

(** A program is an immutable tree of atoms. *)
Inductive Program : Type :=
| Atom (a : bytes)
| Pair (first rest : Program).

(** The Python values that [cli] hands to [Program.to]. *)
Inductive PyValue : Type :=
| PyInt (z : Z)
| PyBytes (b : bytes)
| PyProgram (p : Program)
| PyList (items : list PyValue)
| PyTuple2 (a b : PyValue).

Definition byte_of_Z (z : Z) : byte :=
  match Byte.of_N (Z.to_N (z mod 256)) with
  | Some b => b
  | None => x00
  end.

(** [int.bit_length]. *)
Definition bit_length (v : Z) : Z :=
  if v =? 0 then 0 else Z.log2 (Z.abs v) + 1.

(** [v.to_bytes(n, "big", signed=True)] as a list of byte values. *)
Definition to_bytes_signed (n : nat) (v : Z) : list Z :=
  map (fun i => (v / 256 ^ Z.of_nat i) mod 256) (rev (seq 0 n)).

(** The loop of the runtime's [int_to_bytes] that drops redundant leading
    [00] and [ff] bytes. *)
Fixpoint minimal_bytes (r : list Z) : list Z :=
  match r with
  | b0 :: ((b1 :: _) as tl) =>
      if b0 =? (if Z.testbit b1 7 then 255 else 0)
      then minimal_bytes tl
      else r
  | _ => r
  end.

(** The runtime's conversion of an integer to an atom: minimal big-endian
    two's complement, zero being the empty atom. *)
Definition int_to_bytes (v : Z) : bytes :=
  if v =? 0 then []
  else
    let byte_count := Z.to_nat (Z.shiftr (bit_length v + 8) 3) in
    map byte_of_Z (minimal_bytes (to_bytes_signed byte_count v)).

(** [Program.to]: integers and byte strings become atoms, a 2-tuple a pair,
    a list a nil-terminated chain of pairs; a program is taken as it is. *)
Fixpoint Program_to (v : PyValue) : Program :=
  match v with
  | PyInt z => Atom (int_to_bytes z)
  | PyBytes b => Atom b
  | PyProgram p => p
  | PyTuple2 a b => Pair (Program_to a) (Program_to b)
  | PyList items =>
      (fix chain (l : list PyValue) : Program :=
         match l with
         | [] => Atom []
         | x :: rest => Pair (Program_to x) (chain rest)
         end) items
  end.

(** Reading a program back as a Python list of items; [None] when it is not
    a nil-terminated chain. *)
Fixpoint as_list (p : Program) : option (list Program) :=
  match p with
  | Atom [] => Some []
  | Atom _ => None
  | Pair x rest => option_map (cons x) (as_list rest)
  end.

(** ** The module's global names *)

(** Every name bound at module level of [cmds.py]: the imports, then the
    definitions.  None of them shadows or adds the helper the compile
    branch of [parse_program] calls, and Python has no builtin of that
    name. *)
Definition module_globals : list string :=
  [ "click"; "aiohttp"; "asyncio"; "re"; "json";
    "Optional"; "Tuple"; "Iterable"; "Union";
    "G2Element"; "AugSchemeMPL";
    "WalletRpcClient"; "DEFAULT_ROOT_PATH"; "load_config"; "uint16";
    "hexstr_to_bytes"; "Program"; "compile_clvm_text"; "assemble";
    "SpendBundle";
    "construct_cc_puzzle"; "CC_MOD"; "SpendableCC";
    "unsigned_spend_bundle_for_spendable_ccs";
    "decode_puzzle_hash";
    "get_client"; "get_signed_tx"; "parse_program"; "CONTEXT_SETTINGS";
    "cli"; "main" ].

(** Loading a global name: [NameError] when nothing binds it. *)
Definition load_global (name : string) : result unit :=
  if existsb (String.eqb name) module_globals
  then Ok tt
  else Err (NameError name).

(** ** Ledger values *)

Record Coin : Type := {
  parent_coin_info : bytes;
  puzzle_hash : bytes;
  amount : Z }.

Record CoinSpend : Type := {
  coin : Coin;
  puzzle_reveal : Program;
  solution : Program }.

(** The descriptor handed to the genesis-spend builder; the fields [cli]
    does not pass keep the library's defaults and are left out. *)
Record SpendableCC : Type := {
  cc_coin : Coin;
  limitations_program_hash : bytes;
  inner_puzzle : Program;
  inner_solution : Program;
  limitations_solution : Program;
  limitations_program_reveal : Program }.

(** ** Standard output *)

(** What the module prints, one constructor per [print] call site. *)
Inductive Line : Type :=
| ConnectionErrorLine (port : Z)     (* "Connection error. Check if ..." *)
| HarvesterExceptionLine (e : exn)   (* "Exception from 'harvester' ..." *)
| CoinJsonLine (c : Coin)            (* the coin's JSON dictionary *)
| NameLine (name : bytes)            (* "Name: ..." *)
| AssetIdLine (asset_id : bytes)     (* "Asset ID: ..." *)
| SpendBundleLine (text : string).   (* "Spend Bundle: ..." *)

(** A computation that prints and may raise: what was printed so far, and
    the value or the exception. *)
Definition M (A : Type) : Type := (list Line * result A)%type.

Definition ret {A : Type} (a : A) : M A := ([], Ok a).

Definition bind {A B : Type} (m : M A) (k : A -> M B) : M B :=
  match m with
  | (out, Ok a) => let (out', r) := k a in (out ++ out', r)
  | (out, Err e) => (out, Err e)
  end.

Definition print (l : Line) : M unit := ([l], Ok tt).

Definition lift {A : Type} (r : result A) : M A := ([], r).

Definition stdout {A : Type} (m : M A) : list Line := fst m.

Definition outcome {A : Type} (m : M A) : result A := snd m.

Declare Scope io_scope.
Delimit Scope io_scope with io.
Notation "x <- m ;; k" := (bind m (fun x => k))
  (at level 61, m at next level, right associativity) : io_scope.
Notation "m ;;; k" := (bind m (fun _ => k))
  (at level 61, right associativity) : io_scope.

(** ** Collaborators *)

(** The signature scheme: [G2Element()], [G2Element.from_bytes] and the
    group addition behind [AugSchemeMPL.aggregate]. *)
Class SignatureScheme : Type := {
  G2Element : Type;
  G2Element_zero : G2Element;
  G2Element_add : G2Element -> G2Element -> G2Element;
  G2Element_from_bytes : bytes -> result G2Element }.

(** The laws of the signature group. *)
Class SignatureLaws (S : SignatureScheme) : Prop := {
  G2_add_assoc : forall a b c : G2Element,
    G2Element_add a (G2Element_add b c) = G2Element_add (G2Element_add a b) c;
  G2_add_comm : forall a b : G2Element,
    G2Element_add a b = G2Element_add b a;
  G2_add_zero_l : forall a : G2Element, G2Element_add G2Element_zero a = a }.

(** The puzzle-language runtime and the utilities around it, with the file
    system [open] reads from. *)
Class Runtime : Type := {
  read_text : string -> result string;
  assemble : string -> result Program;
  Program_from_bytes : bytes -> result Program;
  hexstr_to_bytes : string -> result bytes;
  compile_clvm_text : string -> list string -> result Program;
  Program_curry : Program -> list Program -> Program;
  get_tree_hash : Program -> bytes;
  decode_puzzle_hash : string -> result bytes }.

(** The CAT wrapper template. *)
Class CatWrapper : Type := {
  CC_MOD : Program;
  construct_cc_puzzle : Program -> bytes -> Program -> Program }.

Record SpendBundle {S : SignatureScheme} : Type := {
  coin_spends : list CoinSpend;
  aggregated_signature : G2Element }.

Record TransactionRecord {S : SignatureScheme} : Type := {
  spend_bundle : SpendBundle }.

(** What the ledger library computes on coins and bundles. *)
Class Ledger {S : SignatureScheme} : Type := {
  Coin_name : Coin -> bytes;
  additions : SpendBundle -> list Coin;
  removals : SpendBundle -> list Coin;
  SpendBundle_from_bytes : bytes -> result SpendBundle }.

(** The genesis-spend builder and the two renderings of a bundle: all that
    is used only after the select-coin exit. *)
Class SpendBackend {S : SignatureScheme} : Type := {
  unsigned_spend_bundle_for_spendable_ccs :
    Program -> list SpendableCC -> result SpendBundle;
  SpendBundle_hex : SpendBundle -> string;
  json_dumps : SpendBundle -> result string }.

(** The wallet: the outcome of loading the configuration and opening the
    RPC client, and the one RPC the command makes. *)
Class WalletService {S : SignatureScheme} : Type := {
  Client : Type;
  full_node_rpc_port : Z;
  WalletRpcClient_create : result Client;
  create_signed_transaction :
    Client -> list (bytes * Z) -> Z -> result TransactionRecord }.

(** ** The command *)

Section Command.
Context {S : SignatureScheme} {R : Runtime} {W : CatWrapper} {L : Ledger}
  {B : SpendBackend} {Wal : WalletService}.

(** Modelled from the spec: [AugSchemeMPL.aggregate] is the signature
    scheme's, outside src/.  Section 3 gives aggregation as the group
    addition, with the group zero as identity: the sum of the list. *)
Definition AugSchemeMPL_aggregate (sigs : list G2Element) : G2Element :=
  fold_left G2Element_add sigs G2Element_zero.

(** Modelled from the spec: [SpendBundle.aggregate] is the ledger
    library's, outside src/.  Section 3 gives bundle aggregation as:
    concatenate the coin-spend sequences, group-add the signatures. *)
Definition SpendBundle_aggregate (bundles : list SpendBundle) : SpendBundle :=
  {| coin_spends := List.concat (map coin_spends bundles);
     aggregated_signature :=
       AugSchemeMPL_aggregate (map aggregated_signature bundles) |}.

(** [get_client]: the client; or, for what [except Exception] catches, a
    printed diagnostic and [None]; any other exception leaves the
    function. *)
Definition get_client : M (option Client) :=
  match WalletRpcClient_create with
  | Ok full_node_client => ret (Some full_node_client)
  | Err e =>
      if is_Exception e then
        (print (match e with
                | ClientConnectorError =>
                    ConnectionErrorLine full_node_rpc_port
                | _ => HarvesterExceptionLine e
                end) ;;;
         ret None)%io
      else lift (Err e)
  end.

(** [get_signed_tx], a [try] with a [finally] that closes [wallet_client].
    With a client the RPC's outcome is returned after the client is closed.
    With [None] both the call and the [finally] block dereference [None].
    When [get_client] itself raises, [wallet_client] was never bound and
    the [finally] block raises [UnboundLocalError] in place of the
    exception under way. *)
Definition get_signed_tx (ph : bytes) (amt fee : Z) : M TransactionRecord :=
  let (out, r) := get_client in
  match r with
  | Ok (Some c) => (out, create_signed_transaction c [(ph, amt)] fee)
  | Ok None => (out, Err AttributeError)
  | Err _ => (out, Err (UnboundLocalError "wallet_client"))
  end.

(** The argument of [parse_program]: [Union[str, Program]]. *)
Inductive ProgramArg : Type :=
| FromStr (s : string)
| FromProgram (p : Program).

Definition parse_program (program : ProgramArg) (include : list string)
  : result Program :=
  match program with
  | FromProgram p => Ok p
  | FromStr program =>
      if contains_char "(" program then
        (sexp <- assemble program ;;
         Ok (Program_to (PyProgram sexp)))%result
      else if negb (contains_char "." program) then
        (b <- hexstr_to_bytes program ;;
         Program_from_bytes b)%result
      else
        (filestring <- read_text program ;;
         if contains_char "(" filestring then
           if search_mod filestring then
             (* the arguments are evaluated before the call: the helper's
                name is loaded first *)
             (_ <- load_global "append_include" ;;
              sexp <- compile_clvm_text filestring include ;;
              Ok (Program_to (PyProgram sexp)))
           else
             (sexp <- assemble filestring ;;
              Ok (Program_to (PyProgram sexp)))
         else
           (b <- hexstr_to_bytes filestring ;;
            Program_from_bytes b))%result
  end.

(** The options of the command, as click passes them to [cli]. *)
Record CliArgs : Type := {
  opt_tail : string;
  opt_curry : list string;
  opt_solution : string;
  opt_send_to : string;
  opt_amount : Z;
  opt_fee : Z;
  opt_signature : list string;
  opt_spend : list string;
  opt_as_bytes : bool;
  opt_select_coin : bool }.

(** The same options with another [--signature] list. *)
Definition with_signature (a : CliArgs) (sigs : list string) : CliArgs :=
  {| opt_tail := opt_tail a;
     opt_curry := opt_curry a;
     opt_solution := opt_solution a;
     opt_send_to := opt_send_to a;
     opt_amount := opt_amount a;
     opt_fee := opt_fee a;
     opt_signature := sigs;
     opt_spend := opt_spend a;
     opt_as_bytes := opt_as_bytes a;
     opt_select_coin := opt_select_coin a |}.

(** Lines 172-176: the loop over [signature]. *)
Definition aggregate_signatures (signature : list string) : result G2Element :=
  fold_result
    (fun aggregated_signature sig =>
       (b <- hexstr_to_bytes sig ;;
        g <- G2Element_from_bytes b ;;
        Ok (AugSchemeMPL_aggregate [aggregated_signature; g]))%result)
    G2Element_zero signature.

(** Lines 178-182: the loop over [spend]. *)
Definition aggregate_spends (spend : list string) : result SpendBundle :=
  fold_result
    (fun aggregated_spend bundle =>
       (b <- hexstr_to_bytes bundle ;;
        sb <- SpendBundle_from_bytes b ;;
        Ok (SpendBundle_aggregate [aggregated_spend; sb]))%result)
    {| coin_spends := []; aggregated_signature := G2Element_zero |} spend.

(** Lines 184-188: the TAIL with its arguments curried in. *)
Definition construct_tail (tail : Program) (curried_args : list Program)
  : Program :=
  if Z.of_nat (List.length curried_args) >? 0
  then Program_curry tail curried_args
  else tail.

(** Lines 190-193: the intermediate puzzle. *)
Definition p2_puzzle (curried_tail solution : Program) (address : bytes)
  (amount : Z) : Program :=
  Program_to
    (PyTuple2 (PyInt 1)
       (PyList
          [ PyList [PyInt 51; PyInt 0; PyInt (-113);
                    PyProgram curried_tail; PyProgram solution];
            PyList [PyInt 51; PyBytes address; PyInt amount] ])).

(** What [cli] has computed when it reaches the wallet call. *)
Record Setup : Type := {
  st_solution : Program;
  st_aggregated_signature : G2Element;
  st_aggregated_spend : SpendBundle;
  st_curried_tail : Program;
  st_p2_puzzle : Program;
  st_cat_ph : bytes }.

(** Lines 167-197. *)
Definition setup (a : CliArgs) : result Setup :=
  (tail <- parse_program (FromStr (opt_tail a)) [] ;;
   curried_args <- map_result assemble (opt_curry a) ;;
   solution <- parse_program (FromStr (opt_solution a)) [] ;;
   address <- decode_puzzle_hash (opt_send_to a) ;;
   aggregated_signature <- aggregate_signatures (opt_signature a) ;;
   aggregated_spend <- aggregate_spends (opt_spend a) ;;
   let curried_tail := construct_tail tail curried_args in
   let p2 := p2_puzzle curried_tail solution address (opt_amount a) in
   let cat_puzzle :=
     construct_cc_puzzle CC_MOD (get_tree_hash curried_tail) p2 in
   Ok {| st_solution := solution;
         st_aggregated_signature := aggregated_signature;
         st_aggregated_spend := aggregated_spend;
         st_curried_tail := curried_tail;
         st_p2_puzzle := p2;
         st_cat_ph := get_tree_hash cat_puzzle |})%result.

(** Lines 203-205: the created coins at the wrapped puzzle hash. *)
Definition eve_candidates (cat_ph : bytes) (signed_tx : TransactionRecord)
  : list Coin :=
  filter (fun c => bytes_eqb (puzzle_hash c) cat_ph)
    (additions (spend_bundle signed_tx)).

(** Lines 209-211: the spent coins named by the eve coin's parent. *)
Definition primary_candidates (eve_coin : Coin)
  (signed_tx : TransactionRecord) : list Coin :=
  filter (fun c => bytes_eqb (Coin_name c) (parent_coin_info eve_coin))
    (removals (spend_bundle signed_tx)).

(** Lines 208-214: the select-coin exit. *)
Definition select_coin_exit (eve_coin : Coin) (signed_tx : TransactionRecord)
  : M unit :=
  (primary_coin <- lift (first_item (primary_candidates eve_coin signed_tx)) ;;
   print (CoinJsonLine primary_coin) ;;;
   print (NameLine (Coin_name primary_coin)))%io.

(** Lines 217-226: the descriptor of the eve coin. *)
Definition spendable_eve (st : Setup) (eve_coin : Coin) : SpendableCC :=
  {| cc_coin := eve_coin;
     limitations_program_hash := get_tree_hash (st_curried_tail st);
     inner_puzzle := st_p2_puzzle st;
     inner_solution := Program_to (PyList []);
     limitations_solution := st_solution st;
     limitations_program_reveal := st_curried_tail st |}.

(** Lines 217-236: the genesis spend and the final aggregation. *)
Definition final_bundle (st : Setup) (signed_tx : TransactionRecord)
  (eve_coin : Coin) : result SpendBundle :=
  (eve_spend <-
     unsigned_spend_bundle_for_spendable_ccs CC_MOD [spendable_eve st eve_coin] ;;
   Ok (SpendBundle_aggregate
         [ spend_bundle signed_tx;
           eve_spend;
           st_aggregated_spend st;
           {| coin_spends := [];
              aggregated_signature := st_aggregated_signature st |} ]))%result.

(** Lines 238-244: rendering and the two final prints. *)
Definition present (as_bytes : bool) (curried_tail : Program)
  (bundle : SpendBundle) : M unit :=
  (text <- lift (if as_bytes then Ok (SpendBundle_hex bundle)
                 else json_dumps bundle) ;;
   print (AssetIdLine (get_tree_hash curried_tail)) ;;;
   print (SpendBundleLine text))%io.

(** Lines 207-244: what [cli] does once it holds the eve coin. *)
Definition with_eve_coin (a : CliArgs) (st : Setup)
  (signed_tx : TransactionRecord) (eve_coin : Coin) : M unit :=
  if opt_select_coin a then select_coin_exit eve_coin signed_tx
  else
    (bundle <- lift (final_bundle st signed_tx eve_coin) ;;
     present (opt_as_bytes a) (st_curried_tail st) bundle)%io.

(** [cli]. *)
Definition cli (a : CliArgs) : M unit :=
  (st <- lift (setup a) ;;
   signed_tx <- get_signed_tx (st_cat_ph st) (opt_amount a) (opt_fee a) ;;
   eve_coin <- lift (first_item (eve_candidates (st_cat_ph st) signed_tx)) ;;
   with_eve_coin a st signed_tx eve_coin)%io.

(** The curried TAIL and the final bundle of a run that does not take the
    select-coin exit: [cli] up to line 236, without the rendering. *)
Definition issued (a : CliArgs) : M (Program * SpendBundle) :=
  (st <- lift (setup a) ;;
   signed_tx <- get_signed_tx (st_cat_ph st) (opt_amount a) (opt_fee a) ;;
   eve_coin <- lift (first_item (eve_candidates (st_cat_ph st) signed_tx)) ;;
   bundle <- lift (final_bundle st signed_tx eve_coin) ;;
   ret (st_curried_tail st, bundle))%io.

(** One element of [signature] decoded, and one of [spend]. *)
Definition decode_signature (sig : string) : result G2Element :=
  (b <- hexstr_to_bytes sig ;; G2Element_from_bytes b)%result.

Definition decode_spend (bundle : string) : result SpendBundle :=
  (b <- hexstr_to_bytes bundle ;; SpendBundle_from_bytes b)%result.

(** The reading of section 4.3 of the spec: a run whose funding transaction
    has no or several coins at the wrapped puzzle hash ends in an error. *)
Definition eve_coin_uniqueness_enforced (a : CliArgs) : Prop :=
  forall st signed_tx,
    setup a = Ok st ->
    outcome (get_signed_tx (st_cat_ph st) (opt_amount a) (opt_fee a))
      = Ok signed_tx ->
    List.length (eve_candidates (st_cat_ph st) signed_tx) <> 1%nat ->
    exists e, outcome (cli a) = Err e.

End Command.

(** ** A concrete set of collaborators

    Small executable stand-ins for the libraries, used to run the command on
    explicit inputs: signatures are integers under addition, the tree hash
    is a flat serialisation, the wallet pays every requested output from
    one fixed coin.  No general statement below depends on them. *)

Module Demo.

Definition signatures : SignatureScheme :=
  {| G2Element := Z;
     G2Element_zero := 0;
     G2Element_add := Z.add;
     G2Element_from_bytes := fun b =>
       match b with
       | [] => Err (LibraryError "ValueError")
       | _ => Ok (fold_left (fun acc x => acc * 256 + Z.of_N (Byte.to_N x)) b 0)
       end |}.

Definition hex_digit (c : ascii) : option N :=
  let n := N_of_ascii c in
  (if (48 <=? n) && (n <=? 57) then Some (n - 48)
   else if (97 <=? n) && (n <=? 102) then Some (n - 87)
   else if (65 <=? n) && (n <=? 70) then Some (n - 55)
   else None)%N.

Fixpoint fromhex (s : string) : option bytes :=
  match s with
  | EmptyString => Some []
  | String a (String b rest) =>
      match hex_digit a, hex_digit b, fromhex rest with
      | Some x, Some y, Some r =>
          option_map (fun v => v :: r) (Byte.of_N (16 * x + y))
      | _, _, _ => None
      end
  | _ => None
  end.

Definition hexstr (s : string) : result bytes :=
  let body :=
    match s with
    | String "0" (String "x" rest) => rest
    | String "0" (String "X" rest) => rest
    | _ => s
    end in
  match fromhex body with
  | Some b => Ok b
  | None => Err (LibraryError "ValueError")
  end.

Definition hex_char (n : N) : ascii :=
  match String.get (N.to_nat n) "0123456789abcdef" with
  | Some c => c
  | None => "0"%char
  end.

Definition to_hex (b : bytes) : string :=
  fold_right
    (fun x acc =>
       String (hex_char (Byte.to_N x / 16))
         (String (hex_char (Byte.to_N x mod 16)) acc))
    EmptyString b.

(** The files of the demo file system. *)
Definition files : list (string * string) :=
  [ ("tail.clsp", "(mod (x) x)");
    ("tail.clvm", "(q . 1)");
    ("tail.hex", "01") ].

Definition read (path : string) : result string :=
  match find (fun kv => String.eqb (fst kv) path) files with
  | Some kv => Ok (snd kv)
  | None => Err (OSError path)
  end.

(** A few sources the demo assembler knows, and one-digit numerals. *)
Definition asm (s : string) : result Program :=
  if String.eqb s "()" then Ok (Atom [])
  else if String.eqb s "(q . 1)" then Ok (Pair (Atom [x01]) (Atom [x01]))
  else if String.eqb s "(q . 2)" then Ok (Pair (Atom [x01]) (Atom [x02]))
  else
    match s with
    | String c EmptyString =>
        let n := N_of_ascii c in
        if ((48 <=? n) && (n <=? 57))%N
        then Ok (Atom (int_to_bytes (Z.of_N n - 48)))
        else Err (LibraryError "SyntaxError")
    | _ => Err (LibraryError "SyntaxError")
    end.

(** One-byte serialisations only. *)
Definition deserialize (b : bytes) : result Program :=
  match b with
  | [x] =>
      if (Byte.to_N x =? 128)%N then Ok (Atom [])
      else if (Byte.to_N x <? 128)%N then Ok (Atom [x])
      else Err (LibraryError "ValueError")
  | _ => Err (LibraryError "ValueError")
  end.

(** [(a (q . p) (c (q . a1) (c (q . a2) ... 1)))]. *)
Fixpoint curry_args (args : list Program) : Program :=
  match args with
  | [] => Atom [x01]
  | a :: rest =>
      Pair (Atom [x04])
        (Pair (Pair (Atom [x01]) a) (Pair (curry_args rest) (Atom [])))
  end.

Definition curry (p : Program) (args : list Program) : Program :=
  Pair (Atom [x02])
    (Pair (Pair (Atom [x01]) p) (Pair (curry_args args) (Atom []))).

Fixpoint flat (p : Program) : bytes :=
  match p with
  | Atom a => x01 :: byte_of_Z (Z.of_nat (List.length a)) :: a
  | Pair l r => x02 :: flat l ++ flat r
  end.

Definition decode_address (s : string) : result bytes :=
  match s with
  | String "x" (String "c" (String "h" rest)) =>
      match fromhex rest with
      | Some b => Ok b
      | None => Err (LibraryError "ValueError")
      end
  | _ => Err (LibraryError "ValueError")
  end.

Definition runtime : Runtime :=
  {| read_text := read;
     assemble := asm;
     Program_from_bytes := deserialize;
     hexstr_to_bytes := hexstr;
     compile_clvm_text := fun _ _ => Ok (Atom [x02]);
     Program_curry := curry;
     get_tree_hash := flat;
     decode_puzzle_hash := decode_address |}.

Definition wrapper : CatWrapper :=
  {| CC_MOD := Atom [x63; x61; x74];
     construct_cc_puzzle := fun mod_code h inner =>
       curry mod_code [Atom h; inner] |}.

Definition name_of (c : Coin) : bytes :=
  parent_coin_info c ++ puzzle_hash c ++ int_to_bytes (amount c).

Definition int_from_bytes (b : bytes) : Z :=
  fold_left (fun acc x => acc * 256 + Z.of_N (Byte.to_N x)) b 0.

(** The coin a [(51 ph amount)] condition creates. *)
Definition created_coin (parent : bytes) (cond : Program) : list Coin :=
  match as_list cond with
  | Some [Atom op; Atom ph; Atom amt] =>
      if bytes_eqb op [x33]
      then [ {| parent_coin_info := parent; puzzle_hash := ph;
                amount := int_from_bytes amt |} ]
      else []
  | _ => []
  end.

(** Only quoted puzzles are run: [(q . conditions)]. *)
Definition spend_additions (cs : CoinSpend) : list Coin :=
  match puzzle_reveal cs with
  | Pair (Atom op) conds =>
      if bytes_eqb op [x01] then
        match as_list conds with
        | Some l => flat_map (created_coin (name_of (coin cs))) l
        | None => []
        end
      else []
  | _ => []
  end.

Definition bundle_of_byte (b : bytes) : result (@SpendBundle signatures) :=
  match b with
  | [] => Err (LibraryError "ValueError")
  | x :: _ =>
      Ok {| coin_spends :=
              [ {| coin := {| parent_coin_info := [x]; puzzle_hash := [x];
                              amount := Z.of_N (Byte.to_N x) |};
                   puzzle_reveal := Atom [x01];
                   solution := Atom [] |} ];
            aggregated_signature := Z.of_N (Byte.to_N x) : @G2Element signatures |}
  end.

Definition ledger : @Ledger signatures :=
  {| Coin_name := name_of;
     additions := fun b => flat_map spend_additions (coin_spends b);
     removals := fun b => map coin (coin_spends b);
     SpendBundle_from_bytes := bundle_of_byte |}.

(** What the inner puzzle of a descriptor pays out. *)
Definition inner_outputs (s : SpendableCC) : Z :=
  fold_right Z.add 0
    (map amount
       (spend_additions {| coin := cc_coin s;
                           puzzle_reveal := inner_puzzle s;
                           solution := inner_solution s |})).

(** The builder refuses descriptors whose coins and inner puzzles do not
    balance: the amounts spent must equal the amounts created. *)
Definition genesis (mod_code : Program) (ccs : list SpendableCC)
  : result (@SpendBundle signatures) :=
  if fold_right Z.add 0
       (map (fun s => amount (cc_coin s) - inner_outputs s) ccs) =? 0
  then
    Ok {| coin_spends :=
            map (fun s =>
                   {| coin := cc_coin s;
                      puzzle_reveal :=
                        curry mod_code
                          [Atom (limitations_program_hash s); inner_puzzle s];
                      solution :=
                        Program_to
                          (PyList [PyProgram (inner_solution s);
                                   PyProgram (limitations_program_reveal s);
                                   PyProgram (limitations_solution s)]) |})
                ccs;
          aggregated_signature := 0 : @G2Element signatures |}
  else Err (LibraryError "ValueError").

Definition render (b : @SpendBundle signatures) : string :=
  to_hex (flat_map (fun cs => name_of (coin cs)) (coin_spends b)
          ++ int_to_bytes (aggregated_signature b)).

Definition backend : @SpendBackend signatures :=
  {| unsigned_spend_bundle_for_spendable_ccs := genesis;
     SpendBundle_hex := render;
     json_dumps := fun _ => Err (LibraryError "TypeError") |}.

(** A backend whose builder and renderings all fail. *)
Definition broken_backend : @SpendBackend signatures :=
  {| unsigned_spend_bundle_for_spendable_ccs := fun _ _ =>
       Err (LibraryError "ValueError");
     SpendBundle_hex := fun _ => EmptyString;
     json_dumps := fun _ => Err (LibraryError "TypeError") |}.

Definition funding_coin : Coin :=
  {| parent_coin_info := [x0a]; puzzle_hash := [x0b]; amount := 5000 |}.

(** The transaction that spends [funding_coin] under the given create-coin
    conditions. *)
Definition pay (conds : list PyValue) : @TransactionRecord signatures :=
  {| spend_bundle :=
       {| coin_spends :=
            [ {| coin := funding_coin;
                 puzzle_reveal := Program_to (PyTuple2 (PyInt 1) (PyList conds));
                 solution := Atom [] |} ];
          aggregated_signature := 7 : @G2Element signatures |} |}.

Definition create_coin (ph : bytes) (amt : Z) : PyValue :=
  PyList [PyInt 51; PyBytes ph; PyInt amt].

(** The wallet that creates each requested output once. *)
Definition wallet : @WalletService signatures :=
  {| Client := unit;
     full_node_rpc_port := 9256;
     WalletRpcClient_create := Ok tt;
     create_signed_transaction := fun _ outs _ =>
       Ok (pay (map (fun o => create_coin (fst o) (snd o)) outs)) |}.

(** A wallet that creates each requested output in full and, after it, one
    more coin of one mojo at the same puzzle hash. *)
Definition extra_coin_wallet : @WalletService signatures :=
  {| Client := unit;
     full_node_rpc_port := 9256;
     WalletRpcClient_create := Ok tt;
     create_signed_transaction := fun _ outs _ =>
       Ok (pay (flat_map
                  (fun o => [create_coin (fst o) (snd o);
                             create_coin (fst o) 1]) outs)) |}.

(** A wallet whose transaction creates nothing. *)
Definition empty_wallet : @WalletService signatures :=
  {| Client := unit;
     full_node_rpc_port := 9256;
     WalletRpcClient_create := Ok tt;
     create_signed_transaction := fun _ _ _ => Ok (pay []) |}.

(** Creating the client raises the connector's error. *)
Definition absent_wallet : @WalletService signatures :=
  {| Client := unit;
     full_node_rpc_port := 9256;
     WalletRpcClient_create := Err ClientConnectorError;
     create_signed_transaction := fun _ _ _ => Ok (pay []) |}.

Definition run (w : @WalletService signatures) (a : CliArgs) : M unit :=
  @cli signatures runtime wrapper ledger backend w a.

Definition run_setup (a : CliArgs) : result (@Setup signatures) :=
  @setup signatures runtime wrapper ledger a.

Definition other_args : CliArgs :=
  {| opt_tail := "(q . 1)";
     opt_curry := [];
     opt_solution := "()";
     opt_send_to := "xch0e0f";
     opt_amount := 77;
     opt_fee := 3;
     opt_signature := ["05"];
     opt_spend := ["09"];
     opt_as_bytes := true;
     opt_select_coin := false |}.

Definition curried_args : CliArgs :=
  {| opt_tail := "tail.hex";
     opt_curry := ["1"; "2"];
     opt_solution := "()";
     opt_send_to := "xch0c0d";
     opt_amount := 1000;
     opt_fee := 0;
     opt_signature := [];
     opt_spend := [];
     opt_as_bytes := true;
     opt_select_coin := false |}.

(** Issue 1000 mojos of the inline TAIL [(q . 1)], printing bytes. *)
Definition issue_args : CliArgs :=
  {| opt_tail := "(q . 1)";
     opt_curry := [];
     opt_solution := "()";
     opt_send_to := "xch0c0d";
     opt_amount := 1000;
     opt_fee := 0;
     opt_signature := [];
     opt_spend := [];
     opt_as_bytes := true;
     opt_select_coin := false |}.

(** The TAIL and arguments of [curried_args], issued elsewhere. *)
Definition curried_other_args : CliArgs :=
  {| opt_tail := "tail.hex";
     opt_curry := ["1"; "2"];
     opt_solution := "()";
     opt_send_to := "xch0e0f";
     opt_amount := 77;
     opt_fee := 3;
     opt_signature := ["05"];
     opt_spend := ["09"];
     opt_as_bytes := true;
     opt_select_coin := false |}.

Definition select_args : CliArgs :=
  {| opt_tail := "(q . 1)";
     opt_curry := [];
     opt_solution := "()";
     opt_send_to := "xch0c0d";
     opt_amount := 1000;
     opt_fee := 0;
     opt_signature := [];
     opt_spend := [];
     opt_as_bytes := false;
     opt_select_coin := true |}.

End Demo.

(** ** Variations of the collaborators

    The same collaborators with one operation replaced, to state what a
    function does not depend on. *)

(** The runtime [R] over another file system. *)
Definition with_read_text (R : Runtime) (read : string -> result string)
  : Runtime :=
  {| read_text := read;
     assemble := @assemble R;
     Program_from_bytes := @Program_from_bytes R;
     hexstr_to_bytes := @hexstr_to_bytes R;
     compile_clvm_text := @compile_clvm_text R;
     Program_curry := @Program_curry R;
     get_tree_hash := @get_tree_hash R;
     decode_puzzle_hash := @decode_puzzle_hash R |}.

(** The wallet [Wal] answering the RPC by [rpc]. *)
Definition with_rpc {S : SignatureScheme} (Wal : WalletService)
  (rpc : @Client S Wal -> list (bytes * Z) -> Z -> result TransactionRecord)
  : WalletService :=
  {| Client := @Client S Wal;
     full_node_rpc_port := @full_node_rpc_port S Wal;
     WalletRpcClient_create := @WalletRpcClient_create S Wal;
     create_signed_transaction := rpc |}.

(** The same options with another [--amount]. *)
Definition with_amount (a : CliArgs) (amount : Z) : CliArgs :=
  {| opt_tail := opt_tail a;
     opt_curry := opt_curry a;
     opt_solution := opt_solution a;
     opt_send_to := opt_send_to a;
     opt_amount := amount;
     opt_fee := opt_fee a;
     opt_signature := opt_signature a;
     opt_spend := opt_spend a;
     opt_as_bytes := opt_as_bytes a;
     opt_select_coin := opt_select_coin a |}.

(** The line [get_client] prints for the exception it caught. *)
Definition diagnostic (port : Z) (e : exn) : Line :=
  match e with
  | ClientConnectorError => ConnectionErrorLine port
  | _ => HarvesterExceptionLine e
  end.

(** More inputs for sample runs. *)
Module Scenario.

(** A wallet that is there but whose RPC raises. *)
Definition refusing_wallet : @WalletService Demo.signatures :=
  {| Client := unit;
     full_node_rpc_port := 9256;
     WalletRpcClient_create := Ok tt;
     create_signed_transaction := fun _ _ _ =>
       Err (LibraryError "ValueError") |}.

(** No [config.yaml]: the configuration loader ends the process. *)
Definition unconfigured_wallet : @WalletService Demo.signatures :=
  {| Client := unit;
     full_node_rpc_port := 9256;
     WalletRpcClient_create := Err SystemExit;
     create_signed_transaction := fun _ _ _ => Ok (Demo.pay []) |}.

(** A [config.yaml] without the [self_hostname] key. *)
Definition misconfigured_wallet : @WalletService Demo.signatures :=
  {| Client := unit;
     full_node_rpc_port := 9256;
     WalletRpcClient_create := Err (LibraryError "KeyError");
     create_signed_transaction := fun _ _ _ => Ok (Demo.pay []) |}.

(** A wallet that pays somebody else first, then the requested outputs. *)
Definition change_first_wallet : @WalletService Demo.signatures :=
  {| Client := unit;
     full_node_rpc_port := 9256;
     WalletRpcClient_create := Ok tt;
     create_signed_transaction := fun _ outs _ =>
       Ok (Demo.pay (Demo.create_coin [x0b] 4000
                     :: map (fun o => Demo.create_coin (fst o) (snd o)) outs)) |}.

(** The second [--curry] argument does not assemble, nor does the third. *)
Definition bad_curry_args : CliArgs :=
  {| opt_tail := "(q . 1)";
     opt_curry := ["1"; "zz"; "(("];
     opt_solution := "()";
     opt_send_to := "xch0c0d";
     opt_amount := 1000;
     opt_fee := 0;
     opt_signature := [];
     opt_spend := [];
     opt_as_bytes := true;
     opt_select_coin := false |}.

(** The issuance of [Demo.issue_args], printed as JSON. *)
Definition json_args : CliArgs :=
  {| opt_tail := "(q . 1)";
     opt_curry := [];
     opt_solution := "()";
     opt_send_to := "xch0c0d";
     opt_amount := 1000;
     opt_fee := 0;
     opt_signature := [];
     opt_spend := [];
     opt_as_bytes := false;
     opt_select_coin := false |}.

(** A file system in which every path holds the hex text [02]. *)
Definition other_files (path : string) : result string := Ok "02".

End Scenario.

(** * Properties *)

(** ** The two monads *)

Lemma bind_lift_Ok {A B : Type} (a : A) (k : A -> M B) :
  bind (lift (Ok a)) k = k a.
Proof. unfold bind, lift. now destruct (k a). Qed.

Lemma bind_lift_Err {A B : Type} (e : exn) (k : A -> M B) :
  bind (lift (Err e)) k = ([], Err e).
Proof. reflexivity. Qed.

Lemma In_stdout_bind {A B : Type} (m : M A) (k : A -> M B) (l : Line) :
  In l (stdout (bind m k)) ->
  In l (stdout m) \/ exists x, outcome m = Ok x /\ In l (stdout (k x)).
Proof.
  destruct m as [out [x | e]]; unfold stdout, outcome; simpl.
  - destruct (k x) as [out' r] eqn:Hk; simpl. intros Hin.
    apply in_app_or in Hin. destruct Hin as [Hin | Hin]; [now left |].
    right. exists x. rewrite Hk. now split.
  - now left.
Qed.

Lemma outcome_bind_Ok {A B : Type} (m : M A) (k : A -> M B) (b : B) :
  outcome (bind m k) = Ok b ->
  exists x, outcome m = Ok x /\ outcome (k x) = Ok b.
Proof.
  destruct m as [out [x | e]]; unfold outcome; simpl.
  - destruct (k x) as [out' r] eqn:Hk; simpl. intros ->.
    exists x. rewrite Hk. now split.
  - discriminate.
Qed.

Lemma rbind_Ok {A B : Type} (r : result A) (k : A -> result B) (b : B) :
  rbind r k = Ok b -> exists x, r = Ok x /\ k x = Ok b.
Proof. destruct r as [x | e]; simpl; [eauto | discriminate]. Qed.

Lemma first_item_Ok {A : Type} (l : list A) (x : A) :
  first_item l = Ok x -> exists rest, l = x :: rest.
Proof. destruct l; simpl; [discriminate |]. intros [= ->]. eauto. Qed.

(** A loop whose body decodes its element and then combines is a decoding
    of the whole list followed by a fold. *)
Lemma fold_result_decode {A B C : Type} (dec : B -> result C)
  (step : A -> B -> result A) (comb : A -> C -> A) :
  (forall acc x, step acc x = rbind (dec x) (fun y => Ok (comb acc y))) ->
  forall xs acc,
    fold_result step acc xs =
    rbind (map_result dec xs) (fun ys => Ok (fold_left comb ys acc)).
Proof.
  intros Hstep. induction xs as [| x xs IH]; intros acc; simpl.
  - reflexivity.
  - rewrite Hstep. destruct (dec x) as [y | e]; simpl; [| reflexivity].
    rewrite IH. now destruct (map_result dec xs).
Qed.

(** A list comprehension keeps the order and the length of its input. *)
Lemma map_result_Forall2 {A B : Type} (f : A -> result B) :
  forall xs ys, map_result f xs = Ok ys ->
                Forall2 (fun x y => f x = Ok y) xs ys.
Proof.
  induction xs as [| x xs IH]; simpl; intros ys H.
  - injection H as <-. constructor.
  - destruct (f x) as [y | e] eqn:Hy; simpl in H; [| discriminate].
    destruct (map_result f xs) as [ys' | e]; simpl in H; [| discriminate].
    injection H as <-. constructor; auto.
Qed.

(** ** The program resolver *)

Section Resolver.
Context {R : Runtime}.

Lemma search_mod_paren (s : string) :
  search_mod s = true -> contains_char "(" s = true.
Proof.
  induction s as [| c s IH]; simpl; [discriminate |].
  intros H. apply orb_true_iff in H. destruct H as [H | H].
  - destruct c as [[] [] [] [] [] [] [] []]; try discriminate H. reflexivity.
  - rewrite (IH H). apply orb_true_r.
Qed.

(** The resolution order of [parse_program], branch by branch, with what
    each branch evaluates to. *)
Lemma parse_program_resolution (program : ProgramArg) (include : list string) :
  parse_program program include =
  match program with
  | FromProgram p => Ok p
  | FromStr s =>
      if contains_char "(" s then assemble s
      else if contains_char "." s then
        rbind (read_text s) (fun filestring =>
          if search_mod filestring then Err (NameError "append_include")
          else if contains_char "(" filestring then assemble filestring
          else rbind (hexstr_to_bytes filestring) Program_from_bytes)
      else rbind (hexstr_to_bytes s) Program_from_bytes
  end.
Proof.
  destruct program as [s | p]; [| reflexivity]. unfold parse_program.
  destruct (contains_char "(" s).
  - now destruct (assemble s).
  - destruct (contains_char "." s); simpl; [| reflexivity].
    destruct (read_text s) as [filestring | e]; simpl; [| reflexivity].
    destruct (search_mod filestring) eqn:Hmod.
    + now rewrite (search_mod_paren _ Hmod).
    + destruct (contains_char "(" filestring); [| reflexivity].
      now destruct (assemble filestring).
Qed.

(** C9: a path (no parenthesis, a dot) to a file whose text has an opening
    parenthesis and matches the module pattern makes [parse_program] raise
    [NameError] for [append_include], whatever the compiler would return:
    the compile branch never yields a program. *)
Theorem parse_program_module_file_raises
  (path filestring : string) (include : list string) :
  contains_char "(" path = false ->
  contains_char "." path = true ->
  read_text path = Ok filestring ->
  contains_char "(" filestring = true ->
  search_mod filestring = true ->
  parse_program (FromStr path) include = Err (NameError "append_include")
  /\ forall p, parse_program (FromStr path) include <> Ok p.
Proof.
  intros Hparen Hdot Hread Hfile Hmod.
  assert (Hraise : parse_program (FromStr path) include
                   = Err (NameError "append_include")).
  { unfold parse_program. rewrite Hparen, Hdot. simpl.
    rewrite Hread. simpl. rewrite Hfile, Hmod. reflexivity. }
  split; [exact Hraise |]. intros p Hp. rewrite Hraise in Hp. discriminate.
Qed.

End Resolver.

Lemma parse_program_module_file_raises_witness :
  @parse_program Demo.runtime (FromStr "tail.clsp") ["include"]
    = Err (NameError "append_include")
  /\ forall p,
      @parse_program Demo.runtime (FromStr "tail.clsp") ["include"] <> Ok p.
Proof.
  apply (@parse_program_module_file_raises Demo.runtime
           "tail.clsp" "(mod (x) x)" ["include"]); reflexivity.
Defined.

(** C3: on the file [tail.clsp], whose text is the module [(mod (x) x)],
    the resolver does not compile the text: it raises [NameError], although
    the compiler at hand would have returned a program for that text. *)
Theorem parse_program_chialisp_file_not_compiled :
  @read_text Demo.runtime "tail.clsp" = Ok "(mod (x) x)"
  /\ @compile_clvm_text Demo.runtime "(mod (x) x)" [] = Ok (Atom [x02])
  /\ @parse_program Demo.runtime (FromStr "tail.clsp") []
     = Err (NameError "append_include").
Proof. repeat split. Qed.

(** ** Selection by [list(filter(...))[0]] *)

Lemma bytes_eqb_eq (x y : bytes) : bytes_eqb x y = true -> x = y.
Proof. unfold bytes_eqb. now destruct (list_eq_dec byte_eq_dec x y). Qed.

Lemma bytes_eqb_refl (x : bytes) : bytes_eqb x x = true.
Proof. unfold bytes_eqb. now destruct (list_eq_dec byte_eq_dec x x). Qed.

Lemma bytes_eqb_false (x y : bytes) : bytes_eqb x y = false <-> x <> y.
Proof.
  unfold bytes_eqb. destruct (list_eq_dec byte_eq_dec x y); split;
    congruence.
Qed.

(** [list(filter(p, l))[0]] is the earliest element of [l] that passes, and
    raises [IndexError] exactly when none does. *)
Lemma first_item_filter {A : Type} (p : A -> bool) (l : list A) (x : A) :
  first_item (filter p l) = Ok x <->
  exists pre post,
    l = pre ++ x :: post /\ p x = true /\ Forall (fun y => p y = false) pre.
Proof.
  induction l as [| a l IH]; simpl.
  - split; [discriminate |]. intros (pre & post & E & _). now destruct pre.
  - destruct (p a) eqn:Hpa; simpl.
    + split.
      * intros [= ->]. exists [], l. auto.
      * intros (pre & post & E & Hx & Hpre).
        destruct pre as [| b pre]; simpl in E; injection E as <- E.
        -- reflexivity.
        -- inversion Hpre; subst. congruence.
    + rewrite IH. split.
      * intros (pre & post & -> & Hx & Hpre).
        exists (a :: pre), post. auto.
      * intros (pre & post & E & Hx & Hpre).
        destruct pre as [| b pre]; simpl in E; injection E as <- E.
        -- congruence.
        -- inversion Hpre; subst. eauto.
Qed.

Lemma first_item_filter_Err {A : Type} (p : A -> bool) (l : list A) (e : exn) :
  first_item (filter p l) = Err e <->
  e = IndexError /\ Forall (fun y => p y = false) l.
Proof.
  induction l as [| a l IH]; simpl.
  - split; [intros [= <-]; auto | intros [-> _]; reflexivity].
  - destruct (p a) eqn:Hpa; simpl.
    + split; [discriminate |]. intros [_ H]. inversion H; subst. congruence.
    + rewrite IH. split; intros [-> H]; split; auto. now inversion H.
Qed.

(** ** The stages of the command *)

Section Pipeline.
Context {S : SignatureScheme} {R : Runtime} {W : CatWrapper} {L : Ledger}
  {B : SpendBackend} {Wal : WalletService}.

(** What a successful [setup] has computed, stage by stage. *)
Lemma setup_inv (a : CliArgs) (st : Setup) :
  setup a = Ok st <->
  exists tail curried_args solution address,
    parse_program (FromStr (opt_tail a)) [] = Ok tail
    /\ map_result assemble (opt_curry a) = Ok curried_args
    /\ parse_program (FromStr (opt_solution a)) [] = Ok solution
    /\ decode_puzzle_hash (opt_send_to a) = Ok address
    /\ aggregate_signatures (opt_signature a) = Ok (st_aggregated_signature st)
    /\ aggregate_spends (opt_spend a) = Ok (st_aggregated_spend st)
    /\ st_solution st = solution
    /\ st_curried_tail st = construct_tail tail curried_args
    /\ st_p2_puzzle st
       = p2_puzzle (st_curried_tail st) solution address (opt_amount a)
    /\ st_cat_ph st
       = get_tree_hash
           (construct_cc_puzzle CC_MOD (get_tree_hash (st_curried_tail st))
              (st_p2_puzzle st)).
Proof.
  unfold setup. split.
  - intros H.
    repeat (apply rbind_Ok in H; destruct H as (? & ? & H)).
    injection H as <-. simpl. do 4 eexists. repeat split; eassumption.
  - intros (tail & args & sol & addr & Ht & Ha & Hs & Hd & Hg & Hp
            & E1 & E2 & E3 & E4).
    rewrite Ht, Ha, Hs, Hd, Hg, Hp. simpl.
    destruct st; simpl in *. subst. reflexivity.
Qed.

(** A wallet call that returns has printed nothing, and its value is the
    RPC's answer to the one-output request. *)
Lemma get_signed_tx_returns (ph : bytes) (amt fee : Z)
  (signed_tx : TransactionRecord) :
  outcome (get_signed_tx ph amt fee) = Ok signed_tx ->
  get_signed_tx ph amt fee = ([], Ok signed_tx)
  /\ exists c, WalletRpcClient_create = Ok c
               /\ create_signed_transaction c [(ph, amt)] fee = Ok signed_tx.
Proof.
  unfold get_signed_tx, get_client, outcome.
  destruct WalletRpcClient_create as [c | e]; simpl.
  - intros H. split; [| eauto]. now rewrite H.
  - destruct (is_Exception e); discriminate.
Qed.

(** The wallet stage prints diagnostics only. *)
Lemma get_signed_tx_stdout (ph : bytes) (amt fee : Z) (l : Line) :
  In l (stdout (get_signed_tx ph amt fee)) ->
  (exists port, l = ConnectionErrorLine port)
  \/ (exists e, l = HarvesterExceptionLine e).
Proof.
  unfold get_signed_tx, get_client, stdout.
  destruct WalletRpcClient_create as [c | e]; simpl.
  - contradiction.
  - destruct (is_Exception e); simpl; [| contradiction].
    intros [<- | []]. destruct e; eauto.
Qed.

(** [cli] from the point where the wallet has returned. *)
Lemma cli_after_wallet (a : CliArgs) (st : Setup)
  (signed_tx : TransactionRecord) :
  setup a = Ok st ->
  outcome (get_signed_tx (st_cat_ph st) (opt_amount a) (opt_fee a))
    = Ok signed_tx ->
  cli a =
  bind (lift (first_item (eve_candidates (st_cat_ph st) signed_tx)))
    (with_eve_coin a st signed_tx).
Proof.
  intros Hst Htx. unfold cli. rewrite Hst, bind_lift_Ok.
  destruct (get_signed_tx_returns _ _ _ _ Htx) as [-> _].
  apply (bind_lift_Ok signed_tx).
Qed.

(** C1 (amended): once the wallet has returned a signed transaction, [cli]
    scans its additions, in order, for a coin whose puzzle hash is the
    wrapped puzzle hash.  With no such coin it stops with [IndexError]
    having printed nothing.  Otherwise it goes on with the earliest such
    coin as the eve coin, whatever the additions after it are: a second
    coin at the wrapped puzzle hash is not looked for. *)
Theorem eve_coin_is_first_candidate (a : CliArgs) (st : Setup)
  (signed_tx : TransactionRecord) :
  setup a = Ok st ->
  outcome (get_signed_tx (st_cat_ph st) (opt_amount a) (opt_fee a))
    = Ok signed_tx ->
  (Forall (fun c => puzzle_hash c <> st_cat_ph st)
     (additions (spend_bundle signed_tx))
   /\ cli a = ([], Err IndexError))
  \/ (exists pre eve_coin post,
         additions (spend_bundle signed_tx) = pre ++ eve_coin :: post
         /\ puzzle_hash eve_coin = st_cat_ph st
         /\ Forall (fun c => puzzle_hash c <> st_cat_ph st) pre
         /\ cli a = with_eve_coin a st signed_tx eve_coin).
Proof.
  intros Hst Htx. rewrite (cli_after_wallet a st signed_tx Hst Htx).
  assert (Hne : forall l : list Coin,
             Forall (fun c => bytes_eqb (puzzle_hash c) (st_cat_ph st) = false) l
             -> Forall (fun c => puzzle_hash c <> st_cat_ph st) l).
  { intros l. apply Forall_impl. intros c. apply bytes_eqb_false. }
  destruct (first_item (eve_candidates (st_cat_ph st) signed_tx))
    as [eve_coin | e] eqn:Heve.
  - right. unfold eve_candidates in Heve.
    apply first_item_filter in Heve as (pre & post & E & Hph & Hpre).
    exists pre, eve_coin, post.
    split; [exact E |]. split; [now apply bytes_eqb_eq |].
    split; [now apply Hne |]. apply bind_lift_Ok.
  - left. unfold eve_candidates in Heve.
    apply first_item_filter_Err in Heve as [-> Hall].
    split; [now apply Hne | reflexivity].
Qed.

(** An asset identifier on standard output is the tree hash of the curried
    TAIL that [setup] built. *)
Lemma asset_id_line_inv (a : CliArgs) (h : bytes) :
  In (AssetIdLine h) (stdout (cli a)) ->
  exists st, setup a = Ok st /\ h = get_tree_hash (st_curried_tail st).
Proof.
  unfold cli. intros H.
  apply In_stdout_bind in H as [H | (st & Hst & H)]; [contradiction H |].
  exists st. split; [exact Hst |].
  apply In_stdout_bind in H as [H | (signed_tx & _ & H)].
  { apply get_signed_tx_stdout in H as [[? H] | [? H]]; discriminate H. }
  apply In_stdout_bind in H as [H | (eve_coin & _ & H)]; [contradiction H |].
  unfold with_eve_coin in H. destruct (opt_select_coin a).
  - unfold select_coin_exit in H.
    apply In_stdout_bind in H as [H | (primary & _ & H)]; [contradiction H |].
    apply In_stdout_bind in H as [H | (? & _ & H)];
      destruct H as [H | []]; discriminate H.
  - apply In_stdout_bind in H as [H | (bundle & _ & H)]; [contradiction H |].
    unfold present in H.
    apply In_stdout_bind in H as [H | (text & _ & H)]; [contradiction H |].
    apply In_stdout_bind in H as [H | (? & _ & H)]; destruct H as [H | []].
    + now injection H.
    + discriminate H.
Qed.

End Pipeline.

Lemma eve_coin_is_first_candidate_witness :
  exists st signed_tx,
    Demo.run_setup Demo.issue_args = Ok st
    /\ outcome (@get_signed_tx _ Demo.extra_coin_wallet (st_cat_ph st) 1000 0)
       = Ok signed_tx
    /\ ((Forall (fun c => puzzle_hash c <> st_cat_ph st)
           (@additions _ Demo.ledger (spend_bundle signed_tx))
         /\ Demo.run Demo.extra_coin_wallet Demo.issue_args
            = ([], Err IndexError))
        \/ (exists pre eve_coin post,
               @additions _ Demo.ledger (spend_bundle signed_tx)
               = pre ++ eve_coin :: post
               /\ puzzle_hash eve_coin = st_cat_ph st
               /\ Forall (fun c => puzzle_hash c <> st_cat_ph st) pre
               /\ Demo.run Demo.extra_coin_wallet Demo.issue_args
                  = @with_eve_coin _ Demo.runtime Demo.wrapper Demo.ledger
                      Demo.backend Demo.issue_args st signed_tx eve_coin)).
Proof.
  eexists. eexists.
  split; [vm_compute; reflexivity |].
  split; [vm_compute; reflexivity |].
  apply (@eve_coin_is_first_candidate Demo.signatures Demo.runtime
           Demo.wrapper Demo.ledger Demo.backend Demo.extra_coin_wallet
           Demo.issue_args);
    vm_compute; reflexivity.
Defined.

(** Against C1 as the spec words it: with a wallet whose transaction
    creates the requested coin of 1000 mojos and, after it, a second coin
    at the same wrapped puzzle hash, neither run ends in an error.  The
    issuing run builds the genesis spend of the first coin, which balances,
    and prints an asset identifier and a bundle; the select-coin run prints
    the funding coin. *)
Lemma eve_coin_two_candidates_accepted :
  ~ @eve_coin_uniqueness_enforced Demo.signatures Demo.runtime Demo.wrapper
      Demo.ledger Demo.backend Demo.extra_coin_wallet Demo.issue_args
  /\ ~ @eve_coin_uniqueness_enforced Demo.signatures Demo.runtime
         Demo.wrapper Demo.ledger Demo.backend Demo.extra_coin_wallet
         Demo.select_args.
Proof.
  split; intros H;
    destruct (H _ _ ltac:(vm_compute; reflexivity)
                    ltac:(vm_compute; reflexivity)
                    ltac:(vm_compute; discriminate)) as [e He];
    vm_compute in He; discriminate He.
Qed.

(** ** The asset identifier *)

Section AssetId.
Context {R : Runtime}.

(** The guard of lines 185-188, by cases on the argument list. *)
Lemma construct_tail_cases (tail : Program) (curried_args : list Program) :
  construct_tail tail curried_args =
  match curried_args with
  | [] => tail
  | _ :: _ => Program_curry tail curried_args
  end.
Proof.
  unfold construct_tail. destruct curried_args as [| arg rest]; [reflexivity |].
  change (List.length (arg :: rest)) with (Datatypes.S (List.length rest)).
  destruct (Z.of_nat (Datatypes.S (List.length rest)) >? 0) eqn:E;
    [reflexivity |].
  rewrite Z.gtb_ltb in E. apply Z.ltb_ge in E. lia.
Qed.

(** C2: an asset identifier printed by a run is the tree hash of the
    curried TAIL: of the resolved [--tail] itself when there is no
    [--curry] argument, and otherwise of the runtime's curry of the
    resolved [--tail] with all the assembled [--curry] arguments.  So two
    runs over the same runtime and files with the same [--tail] and
    [--curry] print the same identifier, whatever their other options,
    wallet, ledger and signature scheme are. *)
Theorem asset_id_depends_on_tail_only
  (S1 : SignatureScheme) (W1 : CatWrapper) (L1 : @Ledger S1)
  (B1 : @SpendBackend S1) (Wal1 : @WalletService S1)
  (S2 : SignatureScheme) (W2 : CatWrapper) (L2 : @Ledger S2)
  (B2 : @SpendBackend S2) (Wal2 : @WalletService S2)
  (a1 a2 : CliArgs) (h1 h2 : bytes) :
  opt_tail a1 = opt_tail a2 ->
  opt_curry a1 = opt_curry a2 ->
  In (AssetIdLine h1) (stdout (@cli S1 R W1 L1 B1 Wal1 a1)) ->
  In (AssetIdLine h2) (stdout (@cli S2 R W2 L2 B2 Wal2 a2)) ->
  h1 = h2
  /\ exists tail curried_args,
       parse_program (FromStr (opt_tail a1)) [] = Ok tail
       /\ map_result assemble (opt_curry a1) = Ok curried_args
       /\ h1 = get_tree_hash
                 match curried_args with
                 | [] => tail
                 | _ :: _ => Program_curry tail curried_args
                 end.
Proof.
  intros Htail Hcurry H1 H2.
  apply asset_id_line_inv in H1 as (st1 & Hst1 & ->).
  apply asset_id_line_inv in H2 as (st2 & Hst2 & ->).
  apply setup_inv in Hst1
    as (t1 & c1 & ? & ? & Ht1 & Hc1 & _ & _ & _ & _ & _ & E1 & _).
  apply setup_inv in Hst2
    as (t2 & c2 & ? & ? & Ht2 & Hc2 & _ & _ & _ & _ & _ & E2 & _).
  rewrite E1, E2.
  rewrite <- Htail, Ht1 in Ht2. rewrite <- Hcurry, Hc1 in Hc2.
  injection Ht2 as <-. injection Hc2 as <-.
  split; [reflexivity |]. exists t1, c1.
  split; [exact Ht1 |]. split; [exact Hc1 |].
  now rewrite construct_tail_cases.
Qed.

End AssetId.

Lemma asset_id_depends_on_tail_only_witness :
  Demo.flat (Demo.curry (Atom [x01]) [Atom [x01]; Atom [x02]])
  = Demo.flat (Demo.curry (Atom [x01]) [Atom [x01]; Atom [x02]])
  /\ exists tail curried_args,
       @parse_program Demo.runtime (FromStr "tail.hex") [] = Ok tail
       /\ map_result (@assemble Demo.runtime) ["1"; "2"] = Ok curried_args
       /\ Demo.flat (Demo.curry (Atom [x01]) [Atom [x01]; Atom [x02]])
          = @get_tree_hash Demo.runtime
              match curried_args with
              | [] => tail
              | _ :: _ => @Program_curry Demo.runtime tail curried_args
              end.
Proof.
  apply (@asset_id_depends_on_tail_only Demo.runtime
           Demo.signatures Demo.wrapper Demo.ledger Demo.backend Demo.wallet
           Demo.signatures Demo.wrapper Demo.ledger Demo.backend
           Demo.extra_coin_wallet
           Demo.curried_args Demo.curried_other_args).
  - reflexivity.
  - reflexivity.
  - vm_compute. left. reflexivity.
  - vm_compute. left. reflexivity.
Defined.

(** ** The final bundle *)

Lemma bind_assoc {A B C : Type} (m : M A) (k : A -> M B) (k' : B -> M C) :
  bind (bind m k) k' = bind m (fun x => bind (k x) k').
Proof.
  destruct m as [o [x | e]]; simpl; [| reflexivity].
  destruct (k x) as [o1 [y | e]]; simpl; [| reflexivity].
  destruct (k' y) as [o2 r]. now rewrite app_assoc.
Qed.

Lemma bind_ext {A B : Type} (m : M A) (k k' : A -> M B) :
  (forall x, k x = k' x) -> bind m k = bind m k'.
Proof.
  intros H. destruct m as [o [x | e]]; simpl; [| reflexivity]. now rewrite H.
Qed.

Section FinalBundle.
Context {S : SignatureScheme} {R : Runtime} {W : CatWrapper} {L : Ledger}
  {B : SpendBackend} {Wal : WalletService}.

(** Off the select-coin exit, [cli] is [issued] followed by the
    rendering of what it returns. *)
Lemma cli_issue_path (a : CliArgs) :
  opt_select_coin a = false ->
  cli a = bind (issued a) (fun r => present (opt_as_bytes a) (fst r) (snd r)).
Proof.
  intros Hsel. unfold cli, issued.
  rewrite bind_assoc. apply bind_ext. intros st.
  rewrite bind_assoc. apply bind_ext. intros signed_tx.
  rewrite bind_assoc. apply bind_ext. intros eve_coin.
  unfold with_eve_coin. rewrite Hsel.
  rewrite bind_assoc. apply bind_ext. intros bundle.
  symmetry. apply (bind_lift_Ok (st_curried_tail st, bundle)).
Qed.

(** [issued] from the point where the eve coin is known. *)
Lemma issued_after_eve (a : CliArgs) (st : Setup)
  (signed_tx : TransactionRecord) (eve_coin : Coin) :
  setup a = Ok st ->
  outcome (get_signed_tx (st_cat_ph st) (opt_amount a) (opt_fee a))
    = Ok signed_tx ->
  first_item (eve_candidates (st_cat_ph st) signed_tx) = Ok eve_coin ->
  issued a =
  lift (rbind (final_bundle st signed_tx eve_coin)
          (fun bundle => Ok (st_curried_tail st, bundle))).
Proof.
  intros Hst Htx Heve. unfold issued. rewrite Hst, bind_lift_Ok.
  destruct (get_signed_tx_returns _ _ _ _ Htx) as [-> _].
  rewrite (bind_lift_Ok signed_tx). rewrite Heve, bind_lift_Ok.
  now destruct (final_bundle st signed_tx eve_coin).
Qed.

Lemma issued_inv (a : CliArgs) (ct : Program) (fb : SpendBundle) :
  outcome (issued a) = Ok (ct, fb) ->
  exists st signed_tx eve_coin,
    setup a = Ok st
    /\ outcome (get_signed_tx (st_cat_ph st) (opt_amount a) (opt_fee a))
       = Ok signed_tx
    /\ first_item (eve_candidates (st_cat_ph st) signed_tx) = Ok eve_coin
    /\ final_bundle st signed_tx eve_coin = Ok fb
    /\ ct = st_curried_tail st.
Proof.
  unfold issued. intros H.
  apply outcome_bind_Ok in H as (st & Hst & H).
  apply outcome_bind_Ok in H as (signed_tx & Htx & H).
  apply outcome_bind_Ok in H as (eve_coin & Heve & H).
  apply outcome_bind_Ok in H as (bundle & Hfb & H).
  injection H as <- <-. exists st, signed_tx, eve_coin. auto.
Qed.

(** The loop over [--spend] decodes every bundle and folds them, in order,
    into the empty bundle. *)
Lemma aggregate_spends_fold (spend : list string) :
  aggregate_spends spend =
  rbind (map_result decode_spend spend)
    (fun extras =>
       Ok (fold_left (fun acc sb => SpendBundle_aggregate [acc; sb]) extras
             {| coin_spends := []; aggregated_signature := G2Element_zero |})).
Proof.
  unfold aggregate_spends. apply fold_result_decode.
  intros acc x. unfold decode_spend.
  destruct (hexstr_to_bytes x) as [b | e]; simpl; [| reflexivity].
  now destruct (SpendBundle_from_bytes b).
Qed.

(** C4: the bundle a run reaches at line 236 is the aggregation of four
    operands: the funding transaction's bundle, the genesis spend of the
    eve coin, the fold of the decoded [--spend] bundles, and a bundle with
    no coin spends that carries the folded [--signature] value.  Its coin
    spends are the concatenation of the operands' and its signature their
    group sum; off the select-coin exit this is the bundle [cli] renders. *)
Theorem final_bundle_is_fourfold_aggregate
  (a : CliArgs) (ct : Program) (fb : SpendBundle) :
  outcome (issued a) = Ok (ct, fb) ->
  exists st signed_tx eve_coin eve_spend extras,
    setup a = Ok st
    /\ outcome (get_signed_tx (st_cat_ph st) (opt_amount a) (opt_fee a))
       = Ok signed_tx
    /\ first_item (eve_candidates (st_cat_ph st) signed_tx) = Ok eve_coin
    /\ unsigned_spend_bundle_for_spendable_ccs CC_MOD
         [spendable_eve st eve_coin] = Ok eve_spend
    /\ map_result decode_spend (opt_spend a) = Ok extras
    /\ st_aggregated_spend st
       = fold_left (fun acc sb => SpendBundle_aggregate [acc; sb]) extras
           {| coin_spends := []; aggregated_signature := G2Element_zero |}
    /\ aggregate_signatures (opt_signature a)
       = Ok (st_aggregated_signature st)
    /\ fb = SpendBundle_aggregate
              [ spend_bundle signed_tx;
                eve_spend;
                st_aggregated_spend st;
                {| coin_spends := [];
                   aggregated_signature := st_aggregated_signature st |} ]
    /\ coin_spends fb
       = coin_spends (spend_bundle signed_tx) ++ coin_spends eve_spend
         ++ coin_spends (st_aggregated_spend st)
    /\ aggregated_signature fb
       = G2Element_add
           (G2Element_add
              (G2Element_add
                 (G2Element_add G2Element_zero
                    (aggregated_signature (spend_bundle signed_tx)))
                 (aggregated_signature eve_spend))
              (aggregated_signature (st_aggregated_spend st)))
           (st_aggregated_signature st)
    /\ (opt_select_coin a = false -> cli a = present (opt_as_bytes a) ct fb).
Proof.
  intros Hrun.
  destruct (issued_inv a ct fb Hrun)
    as (st & signed_tx & eve_coin & Hst & Htx & Heve & Hfb & ->).
  pose proof Hst as Hparts.
  apply setup_inv in Hparts
    as (? & ? & ? & ? & _ & _ & _ & _ & Hsig & Hspend & _).
  rewrite aggregate_spends_fold in Hspend.
  apply rbind_Ok in Hspend as (extras & Hextras & Hfold).
  injection Hfold as Hfold.
  pose proof Hfb as Hfb'. unfold final_bundle in Hfb'.
  apply rbind_Ok in Hfb' as (eve_spend & Heve_spend & Hagg).
  injection Hagg as <-.
  exists st, signed_tx, eve_coin, eve_spend, extras.
  repeat (split; [solve [auto] |]).
  split; [simpl; now rewrite !app_nil_r |].
  split; [reflexivity |].
  intros Hsel. rewrite (cli_issue_path a Hsel).
  rewrite (issued_after_eve a st signed_tx eve_coin Hst Htx Heve), Hfb.
  simpl rbind. now rewrite bind_lift_Ok.
Qed.

(** Another [--signature] list reaches [setup] through the folded
    signature only. *)
Lemma setup_with_signature (a : CliArgs) (sigs1 sigs2 : list string)
  (st1 : Setup) (g : G2Element) :
  setup (with_signature a sigs1) = Ok st1 ->
  aggregate_signatures sigs2 = Ok g ->
  setup (with_signature a sigs2)
  = Ok {| st_solution := st_solution st1;
          st_aggregated_signature := g;
          st_aggregated_spend := st_aggregated_spend st1;
          st_curried_tail := st_curried_tail st1;
          st_p2_puzzle := st_p2_puzzle st1;
          st_cat_ph := st_cat_ph st1 |}.
Proof.
  intros H Hg.
  apply setup_inv in H
    as (t & c & s & ad & Ht & Hc & Hs & Had & _ & Hsp & E1 & E2 & E3 & E4).
  apply setup_inv. exists t, c, s, ad. simpl in *. repeat split; auto.
Qed.

(** C10: the coin spends of the final bundle do not depend on the
    [--signature] list.  Given a run that reaches its final bundle, any
    other run that differs in [--signature] only and reaches its final
    bundle has the same coin spends (and curried TAIL); and it does reach
    one as soon as its signatures decode. *)
Theorem extra_signatures_leave_coin_spends
  (a : CliArgs) (sigs1 sigs2 : list string) (ct : Program)
  (fb1 : SpendBundle) :
  outcome (issued (with_signature a sigs1)) = Ok (ct, fb1) ->
  (forall ct2 fb2,
      outcome (issued (with_signature a sigs2)) = Ok (ct2, fb2) ->
      ct2 = ct /\ coin_spends fb2 = coin_spends fb1)
  /\ (forall g,
         aggregate_signatures sigs2 = Ok g ->
         exists fb2,
           outcome (issued (with_signature a sigs2)) = Ok (ct, fb2)
           /\ coin_spends fb2 = coin_spends fb1).
Proof.
  intros H1.
  destruct (issued_inv _ _ _ H1)
    as (st1 & signed_tx & eve_coin & Hst1 & Htx & Heve & Hfb1 & ->).
  assert (Hsome : forall g,
             aggregate_signatures sigs2 = Ok g ->
             exists fb2,
               outcome (issued (with_signature a sigs2))
               = Ok (st_curried_tail st1, fb2)
               /\ coin_spends fb2 = coin_spends fb1).
  { intros g Hg.
    pose proof (setup_with_signature a sigs1 sigs2 st1 g Hst1 Hg) as Hst2.
    rewrite (issued_after_eve _ _ signed_tx eve_coin Hst2 Htx Heve).
    unfold final_bundle in *. simpl in *.
    change (spendable_eve _ eve_coin) with (spendable_eve st1 eve_coin).
    apply rbind_Ok in Hfb1 as (eve_spend & -> & Hagg).
    injection Hagg as <-. simpl. eexists. split; reflexivity. }
  split; [| exact Hsome].
  intros ct2 fb2 H2.
  destruct (issued_inv _ _ _ H2) as (st2 & _ & _ & Hst2 & _).
  apply setup_inv in Hst2 as (? & ? & ? & ? & _ & _ & _ & _ & Hg & _).
  destruct (Hsome _ Hg) as (fb2' & Hrun & Hcs).
  rewrite H2 in Hrun. injection Hrun as -> ->. auto.
Qed.

End FinalBundle.

Lemma final_bundle_is_fourfold_aggregate_witness :
  exists ct fb,
    outcome (@issued _ Demo.runtime Demo.wrapper Demo.ledger Demo.backend
               Demo.wallet Demo.other_args) = Ok (ct, fb)
    /\ List.length (@coin_spends Demo.signatures fb) = 3%nat
    /\ @aggregated_signature Demo.signatures fb = 21
    /\ exists st signed_tx eve_spend,
         fb = @SpendBundle_aggregate Demo.signatures
                [ spend_bundle signed_tx;
                  eve_spend;
                  st_aggregated_spend st;
                  {| coin_spends := [];
                     aggregated_signature := st_aggregated_signature st |} ].
Proof.
  eexists. eexists. split; [vm_compute; reflexivity |].
  split; [vm_compute; reflexivity |].
  split; [vm_compute; reflexivity |].
  destruct (@final_bundle_is_fourfold_aggregate Demo.signatures
              Demo.runtime Demo.wrapper Demo.ledger Demo.backend Demo.wallet
              Demo.other_args _ _ ltac:(vm_compute; reflexivity))
    as (st & signed_tx & eve_coin & eve_spend & extras
        & _ & _ & _ & _ & _ & _ & _ & Hfb & _).
  exists st, signed_tx, eve_spend. exact Hfb.
Defined.

Lemma extra_signatures_leave_coin_spends_witness :
  exists fb1 fb2,
    outcome (@issued _ Demo.runtime Demo.wrapper Demo.ledger Demo.backend
               Demo.wallet (with_signature Demo.issue_args []))
    = Ok (Pair (Atom [x01]) (Atom [x01]), fb1)
    /\ outcome (@issued _ Demo.runtime Demo.wrapper Demo.ledger Demo.backend
                  Demo.wallet (with_signature Demo.issue_args ["05"; "0x0102"]))
       = Ok (Pair (Atom [x01]) (Atom [x01]), fb2)
    /\ coin_spends fb2 = coin_spends fb1
    /\ @aggregated_signature Demo.signatures fb1 = 7
    /\ @aggregated_signature Demo.signatures fb2 = 270.
Proof.
  eexists. eexists. split; [vm_compute; reflexivity |].
  split; [vm_compute; reflexivity |].
  split.
  - eapply (@extra_signatures_leave_coin_spends Demo.signatures
              Demo.runtime Demo.wrapper Demo.ledger Demo.backend Demo.wallet
              Demo.issue_args [] ["05"; "0x0102"]);
      vm_compute; reflexivity.
  - split; vm_compute; reflexivity.
Defined.

(** ** The inner puzzle and the curried TAIL *)

Section Puzzles.
Context {S : SignatureScheme} {R : Runtime} {W : CatWrapper} {L : Ledger}.

(** C5: the inner puzzle is the quoted list of exactly two conditions: the
    sentinel [(51 () -113 curried_tail solution)] and the coin creation
    [(51 address amount)].  [p2_puzzle] is a function of these four values
    alone and is the puzzle [setup] stores. *)
Theorem p2_puzzle_two_conditions
  (curried_tail solution : Program) (address : bytes) (amount : Z) :
  let sentinel :=
    Pair (Atom [x33])
      (Pair (Atom [])
         (Pair (Atom [x8f])
            (Pair curried_tail (Pair solution (Atom []))))) in
  let create :=
    Pair (Atom [x33])
      (Pair (Atom address) (Pair (Atom (int_to_bytes amount)) (Atom []))) in
  p2_puzzle curried_tail solution address amount
  = Pair (Atom [x01]) (Pair sentinel (Pair create (Atom [])))
  /\ (exists conditions,
         p2_puzzle curried_tail solution address amount
         = Pair (Atom (int_to_bytes 1)) conditions
         /\ as_list conditions = Some [sentinel; create])
  /\ int_to_bytes 51 = [x33]
  /\ int_to_bytes 0 = []
  /\ int_to_bytes (-113) = [x8f]
  /\ (forall a st,
         setup a = Ok st ->
         exists address',
           decode_puzzle_hash (opt_send_to a) = Ok address'
           /\ st_p2_puzzle st
              = p2_puzzle (st_curried_tail st) (st_solution st) address'
                  (opt_amount a)).
Proof.
  intros sentinel create.
  split; [reflexivity |].
  split; [eexists; split; reflexivity |].
  repeat (split; [reflexivity |]).
  intros a st Hst.
  apply setup_inv in Hst
    as (? & ? & ? & ad & _ & _ & _ & Had & _ & _ & <- & _ & E & _).
  exists ad. auto.
Qed.

(** C6: with no [--curry] argument the curried TAIL is the resolved TAIL
    itself; with at least one, it is the runtime's curry of the TAIL with
    all of them, and the arguments handed over are the [--curry] strings
    assembled one by one, in the order given. *)
Theorem curried_tail_construction :
  (forall tail, construct_tail tail [] = tail)
  /\ (forall tail arg rest,
         construct_tail tail (arg :: rest) = Program_curry tail (arg :: rest))
  /\ (forall a st,
         setup a = Ok st ->
         exists tail curried_args,
           parse_program (FromStr (opt_tail a)) [] = Ok tail
           /\ Forall2 (fun s p => assemble s = Ok p) (opt_curry a) curried_args
           /\ st_curried_tail st = construct_tail tail curried_args).
Proof.
  split; [reflexivity |]. split.
  - intros tail arg rest. unfold construct_tail.
    change (List.length (arg :: rest)) with (Datatypes.S (List.length rest)).
    destruct (Z.of_nat (Datatypes.S (List.length rest)) >? 0) eqn:E;
      [reflexivity |].
    rewrite Z.gtb_ltb in E. apply Z.ltb_ge in E. lia.
  - intros a st Hst.
    apply setup_inv in Hst as (t & c & ? & ? & Ht & Hc & _ & _ & _ & _ & _ & E & _).
    exists t, c. split; [exact Ht |]. split; [| exact E].
    now apply map_result_Forall2.
Qed.

End Puzzles.

Lemma p2_puzzle_two_conditions_witness :
  exists st,
    Demo.run_setup Demo.issue_args = Ok st
    /\ exists address',
         @decode_puzzle_hash Demo.runtime "xch0c0d" = Ok address'
         /\ st_p2_puzzle st
            = p2_puzzle (st_curried_tail st) (st_solution st) address' 1000.
Proof.
  eexists. split; [vm_compute; reflexivity |].
  destruct (@p2_puzzle_two_conditions Demo.signatures Demo.runtime
              Demo.wrapper Demo.ledger (Atom []) (Atom []) [] 0)
    as (_ & _ & _ & _ & _ & Hsetup).
  apply (Hsetup Demo.issue_args). vm_compute. reflexivity.
Defined.

Lemma curried_tail_construction_witness :
  exists st,
    Demo.run_setup Demo.curried_args = Ok st
    /\ exists tail curried_args,
         @parse_program Demo.runtime (FromStr "tail.hex") [] = Ok tail
         /\ Forall2 (fun s p => @assemble Demo.runtime s = Ok p)
              ["1"; "2"] curried_args
         /\ st_curried_tail st
            = @construct_tail Demo.runtime tail curried_args.
Proof.
  eexists. split; [vm_compute; reflexivity |].
  destruct (@curried_tail_construction Demo.signatures Demo.runtime
              Demo.wrapper Demo.ledger) as (_ & _ & Hsetup).
  apply (Hsetup Demo.curried_args). vm_compute. reflexivity.
Defined.

(** ** Signature aggregation *)

Section Signatures.
Context {S : SignatureScheme} {R : Runtime} {Laws : SignatureLaws S}.

(** The loop over [--signature] decodes every signature and folds the
    two-element aggregation over them, in order, from the group zero. *)
Lemma aggregate_signatures_fold (signature : list string) :
  aggregate_signatures signature =
  rbind (map_result decode_signature signature)
    (fun gs =>
       Ok (fold_left (fun acc g => AugSchemeMPL_aggregate [acc; g]) gs
             G2Element_zero)).
Proof.
  unfold aggregate_signatures. apply fold_result_decode.
  intros acc x. unfold decode_signature.
  destruct (hexstr_to_bytes x) as [b | e]; simpl; [| reflexivity].
  now destruct (G2Element_from_bytes b).
Qed.

Lemma aggregate_pair_sum (gs : list G2Element) :
  forall acc,
    fold_left (fun acc g => AugSchemeMPL_aggregate [acc; g]) gs acc
    = fold_left G2Element_add gs acc.
Proof.
  induction gs as [| g gs IH]; intros acc; simpl; [reflexivity |].
  rewrite IH. unfold AugSchemeMPL_aggregate. simpl.
  now rewrite G2_add_zero_l.
Qed.

Lemma fold_add_permutation (gs gs' : list G2Element) :
  Permutation gs gs' ->
  forall acc, fold_left G2Element_add gs acc = fold_left G2Element_add gs' acc.
Proof.
  induction 1 as [| g gs gs' _ IH | g h gs | gs1 gs2 gs3 _ IH1 _ IH2];
    intros acc; simpl.
  - reflexivity.
  - apply IH.
  - f_equal. rewrite <- !G2_add_assoc. f_equal. apply G2_add_comm.
  - now rewrite IH1.
Qed.

Lemma map_result_permutation {A C : Type} (f : A -> result C)
  (xs xs' : list A) :
  Permutation xs xs' ->
  forall ys, map_result f xs = Ok ys ->
             exists ys', map_result f xs' = Ok ys' /\ Permutation ys ys'.
Proof.
  induction 1 as [| x xs xs' _ IH | x y xs | xs1 xs2 xs3 _ IH1 _ IH2];
    intros ys Hys; simpl in *.
  - exists ys. split; [exact Hys |]. injection Hys as <-. constructor.
  - apply rbind_Ok in Hys as (z & -> & Hys).
    apply rbind_Ok in Hys as (zs & Hzs & Hys). injection Hys as <-.
    destruct (IH _ Hzs) as (zs' & -> & Hperm). simpl.
    exists (z :: zs'). split; [reflexivity | now constructor].
  - apply rbind_Ok in Hys as (zy & -> & Hys).
    apply rbind_Ok in Hys as (zs0 & Hzs0 & Hys). injection Hys as <-.
    apply rbind_Ok in Hzs0 as (zx & -> & Hzs0).
    apply rbind_Ok in Hzs0 as (zs & -> & Hzs0). injection Hzs0 as <-.
    simpl. exists (zx :: zy :: zs). split; [reflexivity | constructor].
  - destruct (IH1 _ Hys) as (ys2 & H2 & P2).
    destruct (IH2 _ H2) as (ys3 & H3 & P3).
    exists ys3. split; [exact H3 |]. now transitivity ys2.
Qed.

(** C7: the aggregated extra signature is the fold, from the group zero
    and in the order given, of the group addition over the decoded
    [--signature] values; the group being associative and commutative, any
    permutation of the list aggregates to the same signature. *)
Theorem aggregate_signatures_order_immaterial
  (signature : list string) (s : G2Element) :
  aggregate_signatures signature = Ok s ->
  (exists gs,
      map_result decode_signature signature = Ok gs
      /\ s = fold_left G2Element_add gs G2Element_zero)
  /\ forall signature',
       Permutation signature signature' ->
       aggregate_signatures signature' = Ok s.
Proof.
  intros H. rewrite aggregate_signatures_fold in H.
  apply rbind_Ok in H as (gs & Hgs & H). injection H as <-.
  rewrite aggregate_pair_sum. split.
  - exists gs. auto.
  - intros signature' Hperm.
    destruct (map_result_permutation _ _ _ Hperm _ Hgs) as (gs' & Hgs' & P).
    rewrite aggregate_signatures_fold, Hgs'. simpl.
    rewrite aggregate_pair_sum. f_equal. symmetry.
    now apply fold_add_permutation.
Qed.

End Signatures.

Lemma aggregate_signatures_order_immaterial_witness :
  (exists gs,
      map_result (@decode_signature Demo.signatures Demo.runtime)
        ["05"; "0x0102"; "ff"] = Ok gs
      /\ 518 = fold_left Z.add gs 0)
  /\ forall signature',
       Permutation ["05"; "0x0102"; "ff"] signature' ->
       @aggregate_signatures Demo.signatures Demo.runtime signature' = Ok 518.
Proof.
  apply (@aggregate_signatures_order_immaterial Demo.signatures Demo.runtime
           (Build_SignatureLaws Demo.signatures
              Z.add_assoc Z.add_comm Z.add_0_l)
           ["05"; "0x0102"; "ff"] 518).
  vm_compute. reflexivity.
Defined.

(** ** The select-coin exit *)

Section SelectCoin.
Context {S : SignatureScheme} {R : Runtime} {W : CatWrapper} {L : Ledger}
  {Wal : WalletService}.

(** C8: with [--select-coin] set, [cli] does the same whatever the
    genesis-spend builder and the bundle renderings are: it does not reach
    them.  Once it holds the eve coin it filters the removals of the
    funding bundle for the coins named by the eve coin's parent identifier;
    with one or more it prints the first as JSON, then its name, and
    returns; with none it stops with [IndexError]. *)
Theorem select_coin_prints_funding_coin (B1 B2 : SpendBackend) (a : CliArgs) :
  opt_select_coin a = true ->
  @cli S R W L B1 Wal a = @cli S R W L B2 Wal a
  /\ forall st signed_tx eve_coin,
       setup a = Ok st ->
       outcome (get_signed_tx (st_cat_ph st) (opt_amount a) (opt_fee a))
         = Ok signed_tx ->
       first_item (eve_candidates (st_cat_ph st) signed_tx) = Ok eve_coin ->
       match primary_candidates eve_coin signed_tx with
       | [] => @cli S R W L B1 Wal a = ([], Err IndexError)
       | primary_coin :: _ =>
           In primary_coin (removals (spend_bundle signed_tx))
           /\ Coin_name primary_coin = parent_coin_info eve_coin
           /\ @cli S R W L B1 Wal a
              = ([CoinJsonLine primary_coin;
                  NameLine (Coin_name primary_coin)], Ok tt)
       end.
Proof.
  intros Hsel. split.
  - unfold cli. apply bind_ext. intros st. apply bind_ext. intros signed_tx.
    apply bind_ext. intros eve_coin. unfold with_eve_coin.
    now rewrite Hsel.
  - intros st signed_tx eve_coin Hst Htx Heve.
    rewrite (cli_after_wallet a st signed_tx Hst Htx), Heve, bind_lift_Ok.
    unfold with_eve_coin. rewrite Hsel. unfold select_coin_exit.
    destruct (primary_candidates eve_coin signed_tx) as [| primary rest] eqn:E.
    + reflexivity.
    + assert (Hin : In primary (primary_candidates eve_coin signed_tx))
        by (rewrite E; now left).
      apply filter_In in Hin as [Hin Hname]. apply bytes_eqb_eq in Hname.
      repeat split; auto.
Qed.

End SelectCoin.

Lemma select_coin_prints_funding_coin_witness :
  Demo.run Demo.wallet Demo.select_args
  = @cli _ Demo.runtime Demo.wrapper Demo.ledger Demo.broken_backend
      Demo.wallet Demo.select_args
  /\ Demo.run Demo.wallet Demo.select_args
     = ([CoinJsonLine Demo.funding_coin;
         NameLine (Demo.name_of Demo.funding_coin)], Ok tt).
Proof.
  destruct (@select_coin_prints_funding_coin Demo.signatures Demo.runtime
              Demo.wrapper Demo.ledger Demo.wallet Demo.backend
              Demo.broken_backend Demo.select_args eq_refl) as [Hsame Hexit].
  split; [exact Hsame |].
  specialize (Hexit _ _ _ ltac:(vm_compute; reflexivity)
                ltac:(vm_compute; reflexivity)
                ltac:(vm_compute; reflexivity)).
  vm_compute in Hexit. destruct Hexit as (_ & _ & Hrun).
  vm_compute. exact Hrun.
Defined.

(** ** Sample runs *)

Example int_to_bytes_samples :
  int_to_bytes 1000 = [x03; xe8]
  /\ int_to_bytes 128 = [x00; x80]
  /\ int_to_bytes (-128) = [x80]
  /\ int_to_bytes (-129) = [xff; x7f]
  /\ int_to_bytes (-1) = [xff].
Proof. repeat split. Qed.

Example search_mod_samples :
  search_mod "(mod (x) x)" = true
  /\ search_mod "(a (mod	1))" = true
  /\ search_mod "(model 1)" = false
  /\ search_mod "(q . 1)" = false
  /\ search_mod "(mod" = false.
Proof. repeat split. Qed.

(** The four encodings of one program, and a missing file. *)
Example parse_program_samples :
  @parse_program Demo.runtime (FromStr "(q . 1)") []
  = Ok (Pair (Atom [x01]) (Atom [x01]))
  /\ @parse_program Demo.runtime (FromStr "tail.clvm") []
     = Ok (Pair (Atom [x01]) (Atom [x01]))
  /\ @parse_program Demo.runtime (FromStr "01") [] = Ok (Atom [x01])
  /\ @parse_program Demo.runtime (FromStr "tail.hex") [] = Ok (Atom [x01])
  /\ @parse_program Demo.runtime (FromStr "missing.clvm") []
     = Err (OSError "missing.clvm")
  /\ @parse_program Demo.runtime (FromProgram (Atom [x07])) [] = Ok (Atom [x07]).
Proof. repeat split. Qed.

(** A funding transaction with no coin at the wrapped puzzle hash: the run
    stops with [IndexError] and prints nothing. *)
Example run_without_candidate :
  Demo.run Demo.empty_wallet Demo.issue_args = ([], Err IndexError).
Proof. vm_compute. reflexivity. Qed.

(** No wallet: the diagnostic is printed, then the call on [None] raises. *)
Example run_without_wallet :
  Demo.run Demo.absent_wallet Demo.issue_args
  = ([ConnectionErrorLine 9256], Err AttributeError).
Proof. vm_compute. reflexivity. Qed.

(** An issuance with no extra bundle: two coin spends, funding and genesis,
    and the asset identifier is the tree hash of the TAIL. *)
Example run_issue :
  exists fb,
    outcome (@issued _ Demo.runtime Demo.wrapper Demo.ledger Demo.backend
               Demo.wallet Demo.issue_args)
    = Ok (Pair (Atom [x01]) (Atom [x01]), fb)
    /\ List.length (coin_spends fb) = 2%nat
    /\ Demo.run Demo.wallet Demo.issue_args
       = ([AssetIdLine (Demo.flat (Pair (Atom [x01]) (Atom [x01])));
           SpendBundleLine (Demo.render fb)], Ok tt).
Proof.
  eexists. split; [vm_compute; reflexivity |].
  split; vm_compute; reflexivity.
Qed.

(** * Further properties *)

(** ** The resolver: the module pattern, the include hints, the files *)

Lemma mod_here_spec (s : string) :
  mod_here s = true <->
  exists w post, s = ("(mod" ++ String w post)%string /\ py_isspace w = true.
Proof.
  split.
  - intros H.
    destruct s as [| c1 s]; [discriminate H |].
    destruct c1 as [[] [] [] [] [] [] [] []]; try discriminate H.
    destruct s as [| c2 s]; [discriminate H |].
    destruct c2 as [[] [] [] [] [] [] [] []]; try discriminate H.
    destruct s as [| c3 s]; [discriminate H |].
    destruct c3 as [[] [] [] [] [] [] [] []]; try discriminate H.
    destruct s as [| c4 s]; [discriminate H |].
    destruct c4 as [[] [] [] [] [] [] [] []]; try discriminate H.
    destruct s as [| w post]; [discriminate H |].
    exists w, post. split; [reflexivity | exact H].
  - intros (w & post & -> & Hw). exact Hw.
Qed.

(** X1: [search_mod] holds of a text exactly when the text contains, at some
    position, the four characters [(mod] followed by a whitespace
    character. *)
Theorem search_mod_spec (s : string) :
  search_mod s = true <->
  exists pre w post,
    s = (pre ++ "(mod" ++ String w post)%string /\ py_isspace w = true.
Proof.
  split.
  - induction s as [| c s IH]; [discriminate |].
    intros H. change (mod_here (String c s) || search_mod s = true) in H.
    apply orb_true_iff in H as [H | H].
    + apply mod_here_spec in H as (w & post & E & Hw).
      exists EmptyString, w, post. split; [exact E | exact Hw].
    + destruct (IH H) as (pre & w & post & -> & Hw).
      exists (String c pre), w, post. split; [reflexivity | exact Hw].
  - intros (pre & w & post & -> & Hw).
    induction pre as [| c pre IH].
    + change (mod_here ("(mod" ++ String w post)%string
              || search_mod ("mod" ++ String w post)%string = true).
      apply orb_true_iff. left. apply mod_here_spec. eauto.
    + change (mod_here (String c (pre ++ "(mod" ++ String w post))
              || search_mod (pre ++ "(mod" ++ String w post)%string = true).
      rewrite IH. apply orb_true_r.
Qed.

Section ResolverMore.
Context {R : Runtime}.

(** X2: the include hints have no effect on [parse_program]: whatever two
    lists are passed, the result is the same. *)
Theorem parse_program_ignores_include
  (program : ProgramArg) (include1 include2 : list string) :
  parse_program program include1 = parse_program program include2.
Proof. now rewrite !parse_program_resolution. Qed.

(** X3: a string with an opening parenthesis, or with no dot, is resolved
    without reading any file: the result is the same over every file
    system. *)
Theorem parse_program_inline_reads_no_file
  (read : string -> result string) (s : string) (include : list string) :
  contains_char "(" s = true \/ contains_char "." s = false ->
  @parse_program (with_read_text R read) (FromStr s) include
  = @parse_program R (FromStr s) include.
Proof.
  intros H. unfold parse_program. simpl.
  destruct (contains_char "(" s); [reflexivity |].
  destruct H as [H | ->]; [discriminate H | reflexivity].
Qed.

End ResolverMore.

Lemma parse_program_inline_reads_no_file_witness :
  @parse_program (with_read_text Demo.runtime Scenario.other_files)
    (FromStr "01") []
  = @parse_program Demo.runtime (FromStr "01") [].
Proof.
  apply (@parse_program_inline_reads_no_file Demo.runtime
           Scenario.other_files "01" []).
  right. reflexivity.
Defined.

(** ** The wallet stage *)

Section WalletStage.
Context {S : SignatureScheme} {R : Runtime} {W : CatWrapper} {L : Ledger}
  {B : SpendBackend} {Wal : WalletService}.

Lemma get_signed_tx_no_client (ph : bytes) (amt fee : Z) (e : exn) :
  WalletRpcClient_create = Err e ->
  get_signed_tx ph amt fee
  = if is_Exception e
    then ([diagnostic full_node_rpc_port e], Err AttributeError)
    else ([], Err (UnboundLocalError "wallet_client")).
Proof.
  intros H. unfold get_signed_tx, get_client. rewrite H.
  now destruct (is_Exception e).
Qed.

Lemma get_signed_tx_client (ph : bytes) (amt fee : Z) (c : Client) :
  WalletRpcClient_create = Ok c ->
  get_signed_tx ph amt fee
  = ([], create_signed_transaction c [(ph, amt)] fee).
Proof.
  intros H. unfold get_signed_tx, get_client. rewrite H. reflexivity.
Qed.

(** X4: when the options decode and creating the wallet client raises:
    if the exception is one [except Exception] catches, [cli] prints the
    one diagnostic line for it and ends in [AttributeError], not in the
    exception raised; if it is not (the [SystemExit] of a missing
    [config.yaml]), [cli] prints nothing and ends in [UnboundLocalError],
    raised by the [finally] block of [get_signed_tx]. *)
Theorem cli_without_wallet (a : CliArgs) (st : Setup) (e : exn) :
  setup a = Ok st ->
  WalletRpcClient_create = Err e ->
  cli a =
  if is_Exception e
  then ([diagnostic full_node_rpc_port e], Err AttributeError)
  else ([], Err (UnboundLocalError "wallet_client")).
Proof.
  intros Hst Hc. unfold cli. rewrite Hst, bind_lift_Ok.
  rewrite (get_signed_tx_no_client _ _ _ e Hc).
  now destruct (is_Exception e).
Qed.

(** X5: when the client is there and the RPC raises, [cli] ends in that
    very exception and has printed nothing. *)
Theorem cli_rpc_error (a : CliArgs) (st : Setup) (c : Client) (e : exn) :
  setup a = Ok st ->
  WalletRpcClient_create = Ok c ->
  create_signed_transaction c [(st_cat_ph st, opt_amount a)] (opt_fee a)
    = Err e ->
  cli a = ([], Err e).
Proof.
  intros Hst Hc Hrpc. unfold cli. rewrite Hst, bind_lift_Ok.
  rewrite (get_signed_tx_client _ _ _ c Hc), Hrpc. reflexivity.
Qed.

(** X6: [cli] asks the wallet for one thing only, a transaction with the
    single output (wrapped puzzle hash, amount) at the given fee: a wallet
    that answers that request alike gives the same run. *)
Theorem cli_single_wallet_request (a : CliArgs)
  (rpc : Client -> list (bytes * Z) -> Z -> result TransactionRecord) :
  (forall st c,
      setup a = Ok st ->
      rpc c [(st_cat_ph st, opt_amount a)] (opt_fee a)
      = create_signed_transaction c [(st_cat_ph st, opt_amount a)] (opt_fee a)) ->
  @cli S R W L B (with_rpc Wal rpc) a = @cli S R W L B Wal a.
Proof.
  intros H. unfold cli.
  destruct (setup a) as [st | e] eqn:Hst; [| reflexivity].
  rewrite !bind_lift_Ok.
  unfold get_signed_tx, get_client. simpl.
  destruct (@WalletRpcClient_create S Wal) as [c | e].
  - simpl. now rewrite (H st c).
  - now destruct (is_Exception e).
Qed.

(** X7: every run of [cli] ends in one of four ways: an exception with
    nothing printed; [AttributeError] after the one diagnostic of a missing
    wallet; the two lines of the select-coin exit; the asset identifier line
    followed by the bundle line.  Nothing of the result is printed by a run
    that raises. *)
Theorem cli_run_shape (a : CliArgs) :
  (exists e, cli a = ([], Err e))
  \/ (exists e,
         WalletRpcClient_create = Err e
         /\ cli a = ([diagnostic full_node_rpc_port e], Err AttributeError))
  \/ (opt_select_coin a = true
      /\ exists c, cli a = ([CoinJsonLine c; NameLine (Coin_name c)], Ok tt))
  \/ (opt_select_coin a = false
      /\ exists st text,
           setup a = Ok st
           /\ cli a = ([AssetIdLine (get_tree_hash (st_curried_tail st));
                        SpendBundleLine text], Ok tt)).
Proof.
  destruct (setup a) as [st | e] eqn:Hst.
  2: { left. exists e. unfold cli. now rewrite Hst. }
  destruct WalletRpcClient_create as [c | e] eqn:Hc.
  2: { assert (Hrun : cli a
                       = if is_Exception e
                         then ([diagnostic full_node_rpc_port e],
                               Err AttributeError)
                         else ([], Err (UnboundLocalError "wallet_client"))).
       { unfold cli. rewrite Hst, bind_lift_Ok.
         rewrite (get_signed_tx_no_client _ _ _ e Hc).
         now destruct (is_Exception e). }
       destruct (is_Exception e).
       - right. left. exists e. split; [reflexivity | exact Hrun].
       - left. eexists. exact Hrun. }
  pose proof (get_signed_tx_client (st_cat_ph st) (opt_amount a) (opt_fee a)
                c Hc) as Htx.
  destruct (create_signed_transaction c [(st_cat_ph st, opt_amount a)]
              (opt_fee a)) as [signed_tx | e] eqn:Hrpc.
  2: { left. exists e. unfold cli. rewrite Hst, bind_lift_Ok. now rewrite Htx. }
  assert (Hout : outcome (get_signed_tx (st_cat_ph st) (opt_amount a)
                            (opt_fee a)) = Ok signed_tx)
    by now rewrite Htx.
  rewrite (cli_after_wallet a st signed_tx Hst Hout).
  destruct (eve_candidates (st_cat_ph st) signed_tx) as [| eve_coin rest].
  { left. exists IndexError. reflexivity. }
  simpl first_item. rewrite bind_lift_Ok. unfold with_eve_coin.
  destruct (opt_select_coin a).
  - unfold select_coin_exit.
    destruct (primary_candidates eve_coin signed_tx) as [| primary more].
    + left. exists IndexError. reflexivity.
    + right. right. left. split; [reflexivity |]. exists primary. reflexivity.
  - destruct (final_bundle st signed_tx eve_coin) as [bundle | e].
    2: { left. exists e. reflexivity. }
    rewrite bind_lift_Ok. unfold present.
    destruct (opt_as_bytes a).
    + right. right. right. split; [reflexivity |].
      exists st, (SpendBundle_hex bundle). split; reflexivity.
    + destruct (json_dumps bundle) as [text | e].
      * right. right. right. split; [reflexivity |].
        exists st, text. split; reflexivity.
      * left. exists e. reflexivity.
Qed.

End WalletStage.

Lemma cli_without_wallet_witness :
  Demo.run Scenario.misconfigured_wallet Demo.issue_args
  = ([HarvesterExceptionLine (LibraryError "KeyError")], Err AttributeError)
  /\ Demo.run Scenario.unconfigured_wallet Demo.issue_args
     = ([], Err (UnboundLocalError "wallet_client")).
Proof.
  split.
  - eapply (@cli_without_wallet Demo.signatures Demo.runtime Demo.wrapper
              Demo.ledger Demo.backend Scenario.misconfigured_wallet
              Demo.issue_args _ (LibraryError "KeyError")).
    + vm_compute. reflexivity.
    + reflexivity.
  - eapply (@cli_without_wallet Demo.signatures Demo.runtime Demo.wrapper
              Demo.ledger Demo.backend Scenario.unconfigured_wallet
              Demo.issue_args _ SystemExit).
    + vm_compute. reflexivity.
    + reflexivity.
Defined.

Lemma cli_rpc_error_witness :
  Demo.run Scenario.refusing_wallet Demo.issue_args
  = ([], Err (LibraryError "ValueError")).
Proof.
  eapply (@cli_rpc_error Demo.signatures Demo.runtime Demo.wrapper
            Demo.ledger Demo.backend Scenario.refusing_wallet
            Demo.issue_args _ tt (LibraryError "ValueError")).
  - vm_compute. reflexivity.
  - reflexivity.
  - reflexivity.
Defined.

Lemma cli_single_wallet_request_witness :
  @cli Demo.signatures Demo.runtime Demo.wrapper Demo.ledger Demo.backend
    (with_rpc Demo.wallet
       (fun _ outs fee =>
          if (fee =? 0) then
            Ok (Demo.pay (map (fun o => Demo.create_coin (fst o) (snd o)) outs))
          else Err (LibraryError "ValueError")))
    Demo.issue_args
  = Demo.run Demo.wallet Demo.issue_args.
Proof.
  apply (@cli_single_wallet_request Demo.signatures Demo.runtime
           Demo.wrapper Demo.ledger Demo.backend Demo.wallet Demo.issue_args).
  intros st c Hst. reflexivity.
Defined.

(** ** The loops over the repeated options *)

Lemma rbind_Err {A C : Type} (r : result A) (k : A -> result C) (e : exn) :
  rbind r k = Err e -> r = Err e \/ exists x, r = Ok x /\ k x = Err e.
Proof. destruct r as [x | e']; simpl; [eauto | intros [= ->]; now left]. Qed.

(** A list comprehension raises exactly when some element does, and then
    with the exception of the first such element. *)
Lemma map_result_Err_iff {A C : Type} (f : A -> result C) (xs : list A)
  (e : exn) :
  map_result f xs = Err e <->
  exists pre x post ys,
    xs = pre ++ x :: post /\ map_result f pre = Ok ys /\ f x = Err e.
Proof.
  split.
  - induction xs as [| x xs IH]; simpl; intros H; [discriminate H |].
    apply rbind_Err in H as [Hx | (y & Hx & H)].
    + exists [], x, xs, []. auto.
    + apply rbind_Err in H as [Hxs | (ys & _ & H)]; [| discriminate H].
      destruct (IH Hxs) as (pre & x' & post & ys & -> & Hp & Hx').
      exists (x :: pre), x', post, (y :: ys). simpl. rewrite Hx, Hp. auto.
  - intros (pre & x & post & ys & -> & Hpre & Hx).
    revert ys Hpre. induction pre as [| p pre IH]; simpl; intros ys Hpre.
    + now rewrite Hx.
    + apply rbind_Ok in Hpre as (y & -> & Hpre).
      apply rbind_Ok in Hpre as (ys' & Hys' & _).
      simpl. now rewrite (IH _ Hys').
Qed.

Lemma map_result_app {A C : Type} (f : A -> result C) (xs1 xs2 : list A)
  (ys1 ys2 : list C) :
  map_result f xs1 = Ok ys1 ->
  map_result f xs2 = Ok ys2 ->
  map_result f (xs1 ++ xs2) = Ok (ys1 ++ ys2).
Proof.
  revert ys1. induction xs1 as [| x xs1 IH]; simpl; intros ys1 H1 H2.
  - injection H1 as <-. exact H2.
  - apply rbind_Ok in H1 as (y & -> & H1).
    apply rbind_Ok in H1 as (ys & Hys & H1). injection H1 as <-.
    simpl. now rewrite (IH _ Hys H2).
Qed.

Section Loops.
Context {S : SignatureScheme} {R : Runtime} {W : CatWrapper} {L : Ledger}
  {B : SpendBackend} {Wal : WalletService} {Laws : SignatureLaws S}.

(** X8: the first [--curry] argument that does not assemble ends the run
    with its exception, whatever comes after it in the list; nothing is
    printed and the run is the same for every wallet and backend. *)
Theorem cli_first_bad_curry_argument
  (a : CliArgs) (tail : Program) (pre post : list string) (arg : string)
  (assembled : list Program) (e : exn) :
  parse_program (FromStr (opt_tail a)) [] = Ok tail ->
  opt_curry a = pre ++ arg :: post ->
  map_result assemble pre = Ok assembled ->
  assemble arg = Err e ->
  cli a = ([], Err e).
Proof.
  intros Ht Hsplit Hpre Harg.
  assert (Hcurry : map_result assemble (opt_curry a) = Err e).
  { apply map_result_Err_iff. exists pre, arg, post, assembled. auto. }
  unfold cli, setup. rewrite Ht. simpl. rewrite Hcurry. reflexivity.
Qed.

(** X9: the loop over [--signature] raises exactly when some signature
    does not decode, and then with the exception of the first such one;
    the signatures after it are not looked at. *)
Theorem aggregate_signatures_first_failure
  (signature : list string) (e : exn) :
  aggregate_signatures signature = Err e <->
  exists pre sig post decoded,
    signature = pre ++ sig :: post
    /\ map_result decode_signature pre = Ok decoded
    /\ decode_signature sig = Err e.
Proof.
  rewrite aggregate_signatures_fold, <- map_result_Err_iff.
  destruct (map_result decode_signature signature); simpl;
    split; congruence.
Qed.

Lemma SpendBundle_ext (x y : SpendBundle) :
  coin_spends x = coin_spends y ->
  aggregated_signature x = aggregated_signature y ->
  x = y.
Proof. destruct x, y; simpl. now intros -> ->. Qed.

Lemma G2_add_zero_r (g : G2Element) : G2Element_add g G2Element_zero = g.
Proof. rewrite G2_add_comm. apply G2_add_zero_l. Qed.

Lemma fold_add_shift (gs : list G2Element) :
  forall acc,
    fold_left G2Element_add gs acc
    = G2Element_add acc (fold_left G2Element_add gs G2Element_zero).
Proof.
  induction gs as [| g gs IH]; intros acc; simpl.
  - now rewrite G2_add_zero_r.
  - rewrite IH, (IH (G2Element_add G2Element_zero g)).
    now rewrite G2_add_zero_l, G2_add_assoc.
Qed.

Lemma fold_aggregate_coin_spends (extras : list SpendBundle) :
  forall acc,
    coin_spends
      (fold_left (fun acc sb => SpendBundle_aggregate [acc; sb]) extras acc)
    = coin_spends acc ++ List.concat (map coin_spends extras).
Proof.
  induction extras as [| sb extras IH]; intros acc; simpl.
  - now rewrite app_nil_r.
  - rewrite IH. simpl. now rewrite app_nil_r, app_assoc.
Qed.

Lemma fold_aggregate_signature (extras : list SpendBundle) :
  forall acc,
    aggregated_signature
      (fold_left (fun acc sb => SpendBundle_aggregate [acc; sb]) extras acc)
    = fold_left G2Element_add (map aggregated_signature extras)
        (aggregated_signature acc).
Proof.
  induction extras as [| sb extras IH]; intros acc; simpl.
  - reflexivity.
  - rewrite IH. simpl. unfold AugSchemeMPL_aggregate. simpl.
    now rewrite G2_add_zero_l.
Qed.

(** X10: the bundle folded from [--spend] holds the coin spends of the
    decoded bundles, concatenated in the order given, and the group sum of
    their signatures. *)
Theorem aggregate_spends_concatenates
  (spend : list string) (b : SpendBundle) :
  aggregate_spends spend = Ok b ->
  exists extras,
    map_result decode_spend spend = Ok extras
    /\ coin_spends b = List.concat (map coin_spends extras)
    /\ aggregated_signature b
       = fold_left G2Element_add (map aggregated_signature extras)
           G2Element_zero.
Proof.
  intros H. rewrite aggregate_spends_fold in H.
  apply rbind_Ok in H as (extras & Hextras & H). injection H as <-.
  exists extras. split; [exact Hextras |].
  now rewrite fold_aggregate_coin_spends, fold_aggregate_signature.
Qed.

(** X11: signature lists compose: the aggregate of a concatenation is the
    group sum of the two aggregates. *)
Theorem aggregate_signatures_app
  (sigs1 sigs2 : list string) (s1 s2 : G2Element) :
  aggregate_signatures sigs1 = Ok s1 ->
  aggregate_signatures sigs2 = Ok s2 ->
  aggregate_signatures (sigs1 ++ sigs2) = Ok (G2Element_add s1 s2).
Proof.
  intros H1 H2. rewrite aggregate_signatures_fold in *.
  apply rbind_Ok in H1 as (gs1 & Hgs1 & H1). injection H1 as <-.
  apply rbind_Ok in H2 as (gs2 & Hgs2 & H2). injection H2 as <-.
  rewrite (map_result_app _ _ _ _ _ Hgs1 Hgs2). simpl.
  rewrite !aggregate_pair_sum, fold_left_app.
  now rewrite fold_add_shift.
Qed.

(** X12: spend lists compose: folding a concatenation gives the bundle
    aggregation of the two folded bundles. *)
Theorem aggregate_spends_app
  (spend1 spend2 : list string) (b1 b2 : SpendBundle) :
  aggregate_spends spend1 = Ok b1 ->
  aggregate_spends spend2 = Ok b2 ->
  aggregate_spends (spend1 ++ spend2) = Ok (SpendBundle_aggregate [b1; b2]).
Proof.
  intros H1 H2. rewrite aggregate_spends_fold in *.
  apply rbind_Ok in H1 as (e1 & He1 & H1). injection H1 as <-.
  apply rbind_Ok in H2 as (e2 & He2 & H2). injection H2 as <-.
  rewrite (map_result_app _ _ _ _ _ He1 He2). simpl. f_equal.
  rewrite fold_left_app. apply SpendBundle_ext.
  - rewrite fold_aggregate_coin_spends. simpl.
    rewrite (fold_aggregate_coin_spends e2). simpl.
    now rewrite app_nil_r.
  - rewrite fold_aggregate_signature. simpl.
    rewrite (fold_aggregate_signature e2). simpl.
    unfold AugSchemeMPL_aggregate. simpl.
    now rewrite G2_add_zero_l, fold_add_shift.
Qed.

Lemma aggregate_signatures_permuted
  (sigs sigs' : list string) (g : G2Element) :
  aggregate_signatures sigs = Ok g ->
  Permutation sigs sigs' ->
  aggregate_signatures sigs' = Ok g.
Proof.
  intros H Hperm. rewrite aggregate_signatures_fold in *.
  apply rbind_Ok in H as (gs & Hgs & H). injection H as <-.
  destruct (map_result_permutation _ _ _ Hperm _ Hgs) as (gs' & -> & P).
  simpl. rewrite !aggregate_pair_sum. f_equal. symmetry.
  now apply fold_add_permutation.
Qed.

(** X13: when the options decode, giving the same signatures in another
    order changes nothing of the run: same output, same outcome. *)
Theorem cli_signature_order_immaterial
  (a : CliArgs) (sigs sigs' : list string) (st : Setup) :
  setup (with_signature a sigs) = Ok st ->
  Permutation sigs sigs' ->
  cli (with_signature a sigs') = cli (with_signature a sigs).
Proof.
  intros Hst Hperm.
  assert (Hg : aggregate_signatures sigs = Ok (st_aggregated_signature st)).
  { apply setup_inv in Hst as (? & ? & ? & ? & _ & _ & _ & _ & Hg & _).
    exact Hg. }
  pose proof (setup_with_signature a sigs sigs' st _ Hst
                (aggregate_signatures_permuted _ _ _ Hg Hperm)) as Hst'.
  replace {| st_solution := st_solution st;
             st_aggregated_signature := st_aggregated_signature st;
             st_aggregated_spend := st_aggregated_spend st;
             st_curried_tail := st_curried_tail st;
             st_p2_puzzle := st_p2_puzzle st;
             st_cat_ph := st_cat_ph st |} with st in Hst' by now destruct st.
  unfold cli. rewrite Hst, Hst'. reflexivity.
Qed.

End Loops.

Lemma cli_first_bad_curry_argument_witness :
  Demo.run Demo.wallet Scenario.bad_curry_args
  = ([], Err (LibraryError "SyntaxError")).
Proof.
  apply (@cli_first_bad_curry_argument Demo.signatures Demo.runtime
           Demo.wrapper Demo.ledger Demo.backend Demo.wallet
           Scenario.bad_curry_args (Pair (Atom [x01]) (Atom [x01]))
           ["1"] ["(("] "zz" [Atom [x01]] (LibraryError "SyntaxError"));
    reflexivity.
Defined.

Lemma aggregate_signatures_first_failure_witness :
  @aggregate_signatures Demo.signatures Demo.runtime ["05"; "zz"; ""]
  = Err (LibraryError "ValueError").
Proof.
  apply (proj2 (@aggregate_signatures_first_failure Demo.signatures
                  Demo.runtime ["05"; "zz"; ""] (LibraryError "ValueError"))).
  exists ["05"], "zz", [""], [5]. repeat split.
Defined.

Lemma aggregate_spends_concatenates_witness :
  exists b extras,
    @aggregate_spends Demo.signatures Demo.runtime Demo.ledger ["09"; "0a"]
    = Ok b
    /\ map_result (@decode_spend Demo.signatures Demo.runtime Demo.ledger)
         ["09"; "0a"] = Ok extras
    /\ coin_spends b = List.concat (map coin_spends extras)
    /\ @aggregated_signature Demo.signatures b
       = fold_left Z.add (map (@aggregated_signature Demo.signatures) extras) 0.
Proof.
  eexists.
  destruct (@aggregate_spends_concatenates Demo.signatures Demo.runtime
              Demo.ledger
              (Build_SignatureLaws Demo.signatures
                 Z.add_assoc Z.add_comm Z.add_0_l)
              ["09"; "0a"] _ ltac:(vm_compute; reflexivity))
    as (extras & H).
  exists extras. split; [reflexivity | exact H].
Defined.

Lemma aggregate_signatures_app_witness :
  @aggregate_signatures Demo.signatures Demo.runtime (["05"] ++ ["0x0102"])
  = Ok (5 + 258).
Proof.
  apply (@aggregate_signatures_app Demo.signatures Demo.runtime
           (Build_SignatureLaws Demo.signatures
              Z.add_assoc Z.add_comm Z.add_0_l)
           ["05"] ["0x0102"] 5 258);
    reflexivity.
Defined.

Lemma aggregate_spends_app_witness :
  exists b1 b2,
    @aggregate_spends Demo.signatures Demo.runtime Demo.ledger ["09"] = Ok b1
    /\ @aggregate_spends Demo.signatures Demo.runtime Demo.ledger ["0a"; "0b"]
       = Ok b2
    /\ @aggregate_spends Demo.signatures Demo.runtime Demo.ledger
         (["09"] ++ ["0a"; "0b"])
       = Ok (@SpendBundle_aggregate Demo.signatures [b1; b2]).
Proof.
  eexists. eexists.
  split; [vm_compute; reflexivity |].
  split; [vm_compute; reflexivity |].
  apply (@aggregate_spends_app Demo.signatures Demo.runtime Demo.ledger
           (Build_SignatureLaws Demo.signatures
              Z.add_assoc Z.add_comm Z.add_0_l));
    vm_compute; reflexivity.
Defined.

Lemma cli_signature_order_immaterial_witness :
  Demo.run Demo.wallet (with_signature Demo.issue_args ["0x0102"; "05"])
  = Demo.run Demo.wallet (with_signature Demo.issue_args ["05"; "0x0102"]).
Proof.
  eapply (@cli_signature_order_immaterial Demo.signatures Demo.runtime
            Demo.wrapper Demo.ledger Demo.backend Demo.wallet
            (Build_SignatureLaws Demo.signatures
               Z.add_assoc Z.add_comm Z.add_0_l)
            Demo.issue_args ["05"; "0x0102"] ["0x0102"; "05"]).
  - vm_compute. reflexivity.
  - apply perm_swap.
Defined.

(** ** The eve coin and the rendering *)

Section EveCoin.
Context {S : SignatureScheme} {R : Runtime} {W : CatWrapper} {L : Ledger}
  {B : SpendBackend} {Wal : WalletService}.

(** X14: the eve coin is the earliest of the transaction's additions whose
    puzzle hash is the wrapped one: every addition before it has another
    puzzle hash.  The selection raises, and then [IndexError], exactly when
    no addition has the wrapped puzzle hash. *)
Theorem eve_coin_position (cat_ph : bytes) (signed_tx : TransactionRecord) :
  (forall eve_coin,
      first_item (eve_candidates cat_ph signed_tx) = Ok eve_coin <->
      exists pre post,
        additions (spend_bundle signed_tx) = pre ++ eve_coin :: post
        /\ puzzle_hash eve_coin = cat_ph
        /\ Forall (fun c => puzzle_hash c <> cat_ph) pre)
  /\ (forall e,
         first_item (eve_candidates cat_ph signed_tx) = Err e <->
         e = IndexError
         /\ Forall (fun c => puzzle_hash c <> cat_ph)
              (additions (spend_bundle signed_tx))).
Proof.
  assert (Hall : forall l : list Coin,
             Forall (fun c => bytes_eqb (puzzle_hash c) cat_ph = false) l
             <-> Forall (fun c => puzzle_hash c <> cat_ph) l).
  { intros l. rewrite !Forall_forall.
    split; intros H c Hc; apply bytes_eqb_false; auto. }
  unfold eve_candidates. split.
  - intros eve_coin. rewrite first_item_filter. split.
    + intros (pre & post & E & Hx & Hpre). exists pre, post.
      split; [exact E |]. split; [now apply bytes_eqb_eq | now apply Hall].
    + intros (pre & post & E & Hx & Hpre). exists pre, post.
      split; [exact E |]. split; [| now apply Hall].
      rewrite Hx. apply bytes_eqb_refl.
  - intros e. rewrite first_item_filter_Err. now rewrite Hall.
Qed.

(** X15: a run that has built its final bundle prints the asset identifier
    and the bundle's hex text when [--as-bytes] is set; otherwise it prints
    them only if the JSON encoder accepts the bundle, and if the encoder
    raises, the run ends in that exception with nothing printed, the asset
    identifier included. *)
Theorem cli_rendering (a : CliArgs) (ct : Program) (fb : SpendBundle) :
  opt_select_coin a = false ->
  outcome (issued a) = Ok (ct, fb) ->
  cli a =
  if opt_as_bytes a
  then ([AssetIdLine (get_tree_hash ct);
         SpendBundleLine (SpendBundle_hex fb)], Ok tt)
  else
    match json_dumps fb with
    | Ok text =>
        ([AssetIdLine (get_tree_hash ct); SpendBundleLine text], Ok tt)
    | Err e => ([], Err e)
    end.
Proof.
  intros Hsel Hrun.
  destruct (issued_inv a ct fb Hrun)
    as (st & signed_tx & eve_coin & Hst & Htx & Heve & Hfb & ->).
  rewrite (cli_issue_path a Hsel).
  rewrite (issued_after_eve a st signed_tx eve_coin Hst Htx Heve), Hfb.
  simpl rbind. rewrite bind_lift_Ok. unfold present. simpl fst. simpl snd.
  destruct (opt_as_bytes a); [reflexivity |].
  now destruct (json_dumps fb).
Qed.

End EveCoin.

Lemma eve_coin_position_witness :
  exists eve_coin pre post,
    @additions _ Demo.ledger
      (spend_bundle
         (Demo.pay [Demo.create_coin [x0b] 4000;
                    Demo.create_coin [x0c] 1000;
                    Demo.create_coin [x0c] 1]))
    = pre ++ eve_coin :: post
    /\ puzzle_hash eve_coin = [x0c]
    /\ Forall (fun c => puzzle_hash c <> [x0c]) pre.
Proof.
  eexists.
  apply (proj1 (proj1 (@eve_coin_position Demo.signatures Demo.ledger
                         [x0c]
                         (Demo.pay [Demo.create_coin [x0b] 4000;
                                    Demo.create_coin [x0c] 1000;
                                    Demo.create_coin [x0c] 1]))
                  _)).
  vm_compute. reflexivity.
Defined.

Lemma cli_rendering_witness :
  Demo.run Demo.wallet Scenario.json_args
  = ([], Err (LibraryError "TypeError")).
Proof.
  destruct (Demo.run_setup Scenario.json_args) as [st |] eqn:Hst;
    [| vm_compute in Hst; discriminate Hst].
  eapply eq_trans.
  - eapply (@cli_rendering Demo.signatures Demo.runtime Demo.wrapper
              Demo.ledger Demo.backend Demo.wallet Scenario.json_args);
      [reflexivity | vm_compute; reflexivity].
  - reflexivity.
Defined.

(** ** The amount *)

Section Amount.
Context {S : SignatureScheme} {R : Runtime} {W : CatWrapper} {L : Ledger}.

(** X16: the amount is not validated: options that decode with one amount
    decode with every other integer, zero and negative ones included, to
    the same curried TAIL and solution; only the coin-creation condition of
    the inner puzzle, and with it the wrapped puzzle hash, follow the
    amount. *)
Theorem setup_accepts_any_amount (a : CliArgs) (st : Setup) (amount : Z) :
  setup a = Ok st ->
  exists st' address,
    setup (with_amount a amount) = Ok st'
    /\ decode_puzzle_hash (opt_send_to a) = Ok address
    /\ st_curried_tail st' = st_curried_tail st
    /\ st_solution st' = st_solution st
    /\ st_aggregated_signature st' = st_aggregated_signature st
    /\ st_aggregated_spend st' = st_aggregated_spend st
    /\ st_p2_puzzle st'
       = p2_puzzle (st_curried_tail st) (st_solution st) address amount
    /\ st_cat_ph st'
       = get_tree_hash
           (construct_cc_puzzle CC_MOD (get_tree_hash (st_curried_tail st))
              (st_p2_puzzle st')).
Proof.
  intros Hst.
  apply setup_inv in Hst
    as (t & c & s & ad & Ht & Hc & Hs & Had & Hg & Hsp & E1 & E2 & _ & _).
  set (p2 := p2_puzzle (st_curried_tail st) (st_solution st) ad amount).
  exists {| st_solution := st_solution st;
            st_aggregated_signature := st_aggregated_signature st;
            st_aggregated_spend := st_aggregated_spend st;
            st_curried_tail := st_curried_tail st;
            st_p2_puzzle := p2;
            st_cat_ph :=
              get_tree_hash
                (construct_cc_puzzle CC_MOD
                   (get_tree_hash (st_curried_tail st)) p2) |}, ad.
  split; [| simpl; repeat split; auto].
  apply setup_inv. exists t, c, s, ad. simpl. subst p2.
  rewrite E1. repeat split; auto.
Qed.

End Amount.

Lemma setup_accepts_any_amount_witness :
  exists st' address,
    Demo.run_setup (with_amount Demo.issue_args (-5)) = Ok st'
    /\ @decode_puzzle_hash Demo.runtime "xch0c0d" = Ok address
    /\ st_p2_puzzle st'
       = p2_puzzle (Pair (Atom [x01]) (Atom [x01])) (Atom []) address (-5).
Proof.
  destruct (@setup_accepts_any_amount Demo.signatures Demo.runtime
              Demo.wrapper Demo.ledger Demo.issue_args _ (-5)
              ltac:(vm_compute; reflexivity))
    as (st' & address & Hst' & Had & _ & _ & _ & _ & Hp2 & _).
  exists st', address. split; [exact Hst' |]. split; [exact Had |].
  exact Hp2.
Defined.
